(** * Pet resource service (server.py): a shallow embedding and its contract

    The service is a Flask application with one SQLAlchemy model, [Pet], and
    five views over the table [pets].  The embedding keeps the shape of the
    Python code:

    - values that come out of [request.get_json()] are Python objects, here
      the type [json] ([JNull] is Python's [None]);
    - a [Pet] instance is a mutable object; instances live on a heap and the
      views hold references to them, so that [deserialize] (which assigns
      [self.name] before it looks up ['category']) mutates the object it is
      given;
    - the database session is a unit of work: attribute assignments,
      [db.session.add] and [db.session.delete] only mark objects, and
      [db.session.commit()] writes the marks to the table;
    - Flask-SQLAlchemy removes the session when the request ends, so what was
      not committed is dropped ([full_dispatch_request]);
    - exceptions are values of [exn]; the registered error handlers turn them
      into responses.

    The table is the SQLite table behind the model: rows keyed by a signed
    64-bit integer, with the two String columns holding a text or NULL.  A
    value that is bound to a column is kept as the engine keeps it (a
    number as its text), and a value the driver cannot bind makes the
    statement, and so the commit, fail. *)

From Stdlib Require Import ZArith List String Bool Lia DecimalString.
Import ListNotations.
Local Open Scope string_scope.
Local Open Scope list_scope.
Local Open Scope Z_scope.
#[local] Set Warnings "-register-all".

(** ** Python values *)

(** What [json.loads] can return.  A non-integral number is kept as its
    literal: the service never computes with it. *)
Inductive json : Type :=
| JNull
| JBool (b : bool)
| JInt (n : Z)
| JFloat (literal : string)
| JStr (s : string)
| JArr (items : list json)
| JObj (members : list (string * json)).

(** [dict.get]-style lookup in the members of an object. *)
Fixpoint lookup (key : string) (members : list (string * json)) : option json :=
  match members with
  | [] => None
  | (k, v) :: rest => if String.eqb k key then Some v else lookup key rest
  end.

Definition keys (members : list (string * json)) : list string :=
  map fst members.

(** The exceptions the service raises or lets through. *)
Inductive exn : Type :=
| KeyError (arg : string)
| TypeError (msg : string)
| DataValidationError (message : string)
| NotFound (description : string)
| BuildError
| ReferenceError
| OverflowError
| InterfaceError.

(** ** The model and the table *)

(** class Pet(db.Model): the three columns, as attributes of an instance.
    A new instance has every attribute [None]. *)
Record Pet : Type := mkPet {
  id : option Z;
  name : json;
  category : json
}.

(** A row of the table [pets]: the primary key is always set. *)
Record Row : Type := mkRow {
  row_id : Z;
  row_name : json;
  row_category : json
}.

Definition Table : Type := list Row.

(** Where an instance stands with respect to the session. *)
Inductive ostate : Type :=
| Transient      (* created by [Pet()], not added *)
| Pending        (* [db.session.add], not yet flushed *)
| Persistent     (* loaded from, or flushed to, the table *)
| Deleted        (* [db.session.delete], not yet flushed *)
| Detached.      (* deleted and flushed *)

Record Obj : Type := mkObj {
  obj_pet : Pet;
  obj_state : ostate;
  obj_dirty : bool
}.

(** A Python reference: the position of the object on the heap. *)
Definition ref : Type := nat.

Record World : Type := mkWorld {
  db : Table;
  heap : list Obj
}.

(** ** The table's operations (the store) *)

(** SELECT ... WHERE id = ? *)
Definition find_row (i : Z) (t : Table) : option Row :=
  find (fun r => Z.eqb (row_id r) i) t.

(** The largest key in use, if any. *)
Fixpoint max_id (t : Table) : option Z :=
  match t with
  | [] => None
  | r :: rest =>
      match max_id rest with
      | None => Some (row_id r)
      | Some m => Some (Z.max (row_id r) m)
      end
  end.

(** The key given to an inserted row: 1 in an empty table, else one more
    than the largest key in use. *)
Definition next_id (t : Table) : Z :=
  match max_id t with
  | None => 1
  | Some m => m + 1
  end.

(** INSERT *)
Definition insert_row (r : Row) (t : Table) : Table := t ++ [r].

(** UPDATE ... SET name = ?, category = ? WHERE id = ? *)
Definition update_row (i : Z) (n c : json) (t : Table) : Table :=
  map (fun r => if Z.eqb (row_id r) i then mkRow i n c else r) t.

(** DELETE ... WHERE id = ? *)
Definition delete_row (i : Z) (t : Table) : Table :=
  filter (fun r => negb (Z.eqb (row_id r) i)) t.

(** [Pet.category == category] as the engine evaluates it: for a string,
    the rows whose category is that text (NULL and anything else do not
    match); for None, SQLAlchemy emits IS NULL. *)
Definition category_is (c : option string) (r : Row) : bool :=
  match c, row_category r with
  | Some c, JStr s => String.eqb s c
  | None, JNull => true
  | _, _ => false
  end.

(** ** The monad of a view: world passing with exceptions *)

Inductive outcome (A : Type) : Type :=
| Return (a : A)
| Raise (e : exn).
Arguments Return {A} a.
Arguments Raise {A} e.

Definition M (A : Type) : Type := World -> outcome A * World.

Definition ret {A} (a : A) : M A := fun w => (Return a, w).

Definition raise {A} (e : exn) : M A := fun w => (Raise e, w).

Definition bind {A B} (m : M A) (k : A -> M B) : M B :=
  fun w =>
    match m w with
    | (Return a, w') => k a w'
    | (Raise e, w') => (Raise e, w')
    end.

(** try: ... except: ... *)
Definition try_except {A} (m : M A) (handler : exn -> M A) : M A :=
  fun w =>
    match m w with
    | (Return a, w') => (Return a, w')
    | (Raise e, w') => handler e w'
    end.

Declare Scope view_scope.
Delimit Scope view_scope with view.
Notation "x <- m ;; k" := (bind m (fun x => k))
  (at level 61, m at next level, right associativity) : view_scope.
Notation "m ;; k" := (bind m (fun _ => k))
  (at level 61, right associativity) : view_scope.
Local Open Scope view_scope.

(** for x in xs: collect f(x) *)
Fixpoint for_each {A B} (f : A -> M B) (xs : list A) : M (list B) :=
  match xs with
  | [] => ret []
  | x :: rest =>
      y <- f x ;;
      ys <- for_each f rest ;;
      ret (y :: ys)
  end.

(** ** The heap *)

Fixpoint set_nth {A} (n : nat) (a : A) (l : list A) : list A :=
  match l, n with
  | [], _ => []
  | _ :: rest, O => a :: rest
  | x :: rest, S n' => x :: set_nth n' a rest
  end.

Definition alloc (o : Obj) : M ref :=
  fun w => (Return (List.length (heap w)), mkWorld (db w) (heap w ++ [o])).

Definition deref (r : ref) : M Obj :=
  fun w =>
    match nth_error (heap w) r with
    | Some o => (Return o, w)
    | None => (Raise ReferenceError, w)
    end.

Definition store (r : ref) (o : Obj) : M unit :=
  fun w => (Return tt, mkWorld (db w) (set_nth r o (heap w))).

(** pet = Pet() *)
Definition Pet_new : M ref :=
  alloc (mkObj (mkPet None JNull JNull) Transient false).

(** self.name = value *)
Definition set_name (self : ref) (value : json) : M unit :=
  o <- deref self ;;
  store self (mkObj (mkPet (id (obj_pet o)) value (category (obj_pet o)))
                    (obj_state o) true).

(** self.category = value *)
Definition set_category (self : ref) (value : json) : M unit :=
  o <- deref self ;;
  store self (mkObj (mkPet (id (obj_pet o)) (name (obj_pet o)) value)
                    (obj_state o) true).

(** data[key] for a string key: only a dict can be subscripted with it. *)
Definition getitem (data : json) (key : string) : M json :=
  match data with
  | JObj members =>
      match lookup key members with
      | Some v => ret v
      | None => raise (KeyError key)
      end
  | JNull => raise (TypeError "'NoneType' object has no attribute '__getitem__'")
  | JBool _ => raise (TypeError "'bool' object has no attribute '__getitem__'")
  | JInt _ => raise (TypeError "'int' object has no attribute '__getitem__'")
  | JFloat _ => raise (TypeError "'float' object has no attribute '__getitem__'")
  | JStr _ => raise (TypeError "string indices must be integers")
  | JArr _ => raise (TypeError "list indices must be integers, not str")
  end.

(** ** What the driver binds *)

(** "{}".format(i) for an int; also the text the engine keeps of an
    integer. *)
Definition format_int (i : Z) : string :=
  NilZero.string_of_int (Z.to_int i).

(** The integers the driver can bind: those of a signed 64-bit word.  For
    any other it raises OverflowError. *)
Definition fits_int64 (n : Z) : bool :=
  (- 2 ^ 63 <=? n) && (n <? 2 ^ 63).

(** A value bound to one of the String columns, as it is read back: None is
    NULL, a string is kept, a number or a boolean (an int for the driver) is
    kept as its text, for a real in the engine's rendering, for which the
    literal stands.  A list or a dict cannot be bound (InterfaceError), nor
    an integer outside 64 bits (OverflowError). *)
Definition bind_param (v : json) : outcome json :=
  match v with
  | JNull => Return JNull
  | JStr s => Return (JStr s)
  | JBool b => Return (JStr (if b then "1" else "0"))
  | JInt n =>
      if fits_int64 n then Return (JStr (format_int n)) else Raise OverflowError
  | JFloat literal => Return (JStr literal)
  | JArr _ | JObj _ => Raise InterfaceError
  end.

(** [old == new], by which the session tells whether an assignment changed
    an attribute.  What is loaded from the table is a text or None, which
    equal only the same text and None. *)
Fixpoint same_value (old new : json) {struct old} : bool :=
  match old, new with
  | JNull, JNull => true
  | JBool a, JBool b => Bool.eqb a b
  | JInt a, JInt b => Z.eqb a b
  | JFloat a, JFloat b => String.eqb a b
  | JStr a, JStr b => String.eqb a b
  | JArr xs, JArr ys =>
      (fix items (xs ys : list json) {struct xs} : bool :=
         match xs, ys with
         | [], [] => true
         | x :: xs', y :: ys' => same_value x y && items xs' ys'
         | _, _ => false
         end) xs ys
  | JObj xs, JObj ys =>
      (fix members (xs ys : list (string * json)) {struct xs} : bool :=
         match xs, ys with
         | [], [] => true
         | (k, x) :: xs', (k', y) :: ys' =>
             String.eqb k k' && same_value x y && members xs' ys'
         | _, _ => false
         end) xs ys
  | _, _ => false
  end.

(** The value an UPDATE leaves in a column: the old one when the attribute
    was assigned an equal value (the column is not in the statement), else
    the new one as bound. *)
Definition written (old new : json) : outcome json :=
  if same_value old new then Return old else bind_param new.

(** Sequencing of statements that can fail. *)
Definition and_then {A B} (x : outcome A) (k : A -> outcome B) : outcome B :=
  match x with
  | Return a => k a
  | Raise e => Raise e
  end.

(** ** The session (a unit of work over the heap) *)

(** A row read by a query becomes a persistent instance. *)
Definition load (r : Row) : M ref :=
  alloc (mkObj (mkPet (Some (row_id r)) (row_name r) (row_category r))
               Persistent false).

(** Pet.query.get(id).  Every view issues its one query in a new session,
    so no instance of the row is in the session yet and the row is read.
    The id is bound to the statement: one outside 64 bits raises
    OverflowError.  No row has such a key, so this shows where no row is
    found. *)
Definition query_get (i : Z) : M (option ref) :=
  fun w =>
    match find_row i (db w) with
    | Some r => (p <- load r ;; ret (Some p)) w
    | None =>
        if fits_int64 i then (Return None, w) else (Raise OverflowError, w)
    end.

(** The description werkzeug gives to [abort(404)]. *)
Definition default_not_found : string :=
  "The requested URL was not found on the server.  If you entered the URL manually please check your spelling and try again.".

(** Pet.query.get_or_404(id) *)
Definition query_get_or_404 (i : Z) : M ref :=
  found <- query_get i ;;
  match found with
  | Some p => ret p
  | None => raise (NotFound default_not_found)
  end.

(** Pet.query.all() *)
Definition query_all : M (list ref) :=
  fun w => for_each load (db w) w.

(** Pet.query.filter(Pet.category == category), once iterated *)
Definition query_filter_category (c : option string) : M (list ref) :=
  fun w => for_each load (filter (category_is c) (db w)) w.

(** db.session.add(pet) *)
Definition session_add (p : ref) : M unit :=
  o <- deref p ;;
  store p (mkObj (obj_pet o)
                 (match obj_state o with Transient => Pending | s => s end)
                 (obj_dirty o)).

(** db.session.delete(pet) *)
Definition session_delete (p : ref) : M unit :=
  o <- deref p ;;
  store p (mkObj (obj_pet o)
                 (match obj_state o with Persistent => Deleted | s => s end)
                 (obj_dirty o)).

(** What a flush does with one instance: INSERT a pending one (the table
    gives the key when the instance has none), UPDATE a persistent one in
    the columns whose attribute was assigned another value, DELETE a deleted
    one.  The statement fails when a value cannot be bound.  After it the
    attributes are read again from the row. *)
Definition flush_obj (t : Table) (o : Obj) : outcome (Table * Obj) :=
  let p := obj_pet o in
  match obj_state o with
  | Pending =>
      and_then (bind_param (name p)) (fun n =>
      and_then (bind_param (category p)) (fun c =>
      let i := match id p with Some i => i | None => next_id t end in
      Return (insert_row (mkRow i n c) t,
              mkObj (mkPet (Some i) n c) Persistent false)))
  | Persistent =>
      match id p, obj_dirty o with
      | Some i, true =>
          match find_row i t with
          | Some r =>
              and_then (written (row_name r) (name p)) (fun n =>
              and_then (written (row_category r) (category p)) (fun c =>
              Return (update_row i n c t,
                      mkObj (mkPet (Some i) n c) Persistent false)))
          | None => Return (t, o)
          end
      | _, _ => Return (t, o)
      end
  | Deleted =>
      match id p with
      | Some i => Return (delete_row i t, mkObj p Detached false)
      | None => Return (t, o)
      end
  | Transient | Detached => Return (t, o)
  end.

Fixpoint flush (t : Table) (objs : list Obj) : outcome (Table * list Obj) :=
  match objs with
  | [] => Return (t, [])
  | o :: rest =>
      and_then (flush_obj t o) (fun '(t1, o') =>
      and_then (flush t1 rest) (fun '(t2, rest') =>
      Return (t2, o' :: rest')))
  end.

(** db.session.commit(): when a statement fails the transaction is rolled
    back and the exception leaves the view. *)
Definition session_commit : M unit :=
  fun w =>
    match flush (db w) (heap w) with
    | Return (t, h) => (Return tt, mkWorld t h)
    | Raise e => (Raise e, w)
    end.

(** ** HTTP *)

Inductive Body : Type :=
| Text (s : string)
| Json (j : json).

Record Response : Type := mkResponse {
  status_code : Z;
  data : Body;
  headers : list (string * string)
}.

(** What a view reads from Flask's [request]: the query string, the value
    of [request.get_json()] and the root of the external URL. *)
Record Request : Type := mkRequest {
  args : list (string * string);
  get_json : json;
  url_root : string
}.

Definition HTTP_200_OK : Z := 200.
Definition HTTP_201_CREATED : Z := 201.
Definition HTTP_204_NO_CONTENT : Z := 204.
Definition HTTP_400_BAD_REQUEST : Z := 400.
Definition HTTP_404_NOT_FOUND : Z := 404.
Definition HTTP_500_INTERNAL_SERVER_ERROR : Z := 500.

Definition make_response (rv : Body) (status : Z)
    (hs : list (string * string)) : Response :=
  mkResponse status rv hs.

Definition jsonify (j : json) : Body := Json j.

(** request.args.get(key): the first value of the key, or None. *)
Fixpoint args_get (key : string) (a : list (string * string)) : option string :=
  match a with
  | [] => None
  | (k, v) :: rest => if String.eqb k key then Some v else args_get key rest
  end.

(** The truth value of what [request.args.get] returns, as [if category:]
    takes it: None and the empty string are false. *)
Definition truthy (v : option string) : bool :=
  match v with
  | Some s => negb (String.eqb s "")
  | None => false
  end.

(** url_for('get_pets', id=i, _external=True) *)
Definition url_for_get_pets (root : string) (i : option Z) : M string :=
  match i with
  | Some i => ret (root ++ "pets/" ++ format_int i)%string
  | None => raise BuildError
  end.

(** *** Error handlers *)

Definition error_envelope (status : Z) (error message : string) : json :=
  JObj [("status", JInt status); ("error", JStr error);
        ("message", JStr message)].

(** @app.errorhandler(DataValidationError) *)
Definition request_validation_error (e_message : string) : Response :=
  make_response (jsonify (error_envelope 400 "Bad Request" e_message))
                HTTP_400_BAD_REQUEST [].

(** @app.errorhandler(404) *)
Definition not_found (e_description : string) : Response :=
  make_response (jsonify (error_envelope 404 "Not Found" e_description))
                HTTP_404_NOT_FOUND [].

(** @app.errorhandler(500) *)
Definition internal_error : Response :=
  make_response
    (jsonify (error_envelope 500 "Internal Server Error"
                             "Huston... we have a problem."))
    HTTP_500_INTERNAL_SERVER_ERROR [].

(** The handler Flask picks for an exception that leaves a view. *)
Definition handle_user_exception (e : exn) : Response :=
  match e with
  | DataValidationError message => request_validation_error message
  | NotFound description => not_found description
  | KeyError _ | TypeError _ | BuildError | ReferenceError
  | OverflowError | InterfaceError => internal_error
  end.

(** ** Methods of Pet *)

Definition id_value (i : option Z) : json :=
  match i with
  | Some n => JInt n
  | None => JNull
  end.

(** The dict literal of [serialize], for the attribute values [p]. *)
Definition pet_dict (p : Pet) : json :=
  JObj [("id", id_value (id p)); ("name", name p); ("category", category p)].

(** def serialize(self) *)
Definition serialize (self : ref) : M json :=
  o <- deref self ;;
  ret (pet_dict (obj_pet o)).

(** def deserialize(self, data) *)
Definition deserialize (self : ref) (data : json) : M ref :=
  try_except
    (v <- getitem data "name" ;;
     set_name self v ;;
     v <- getitem data "category" ;;
     set_category self v)
    (fun e =>
       match e with
       | KeyError arg =>
           raise (DataValidationError ("Invalid pet: missing " ++ arg)%string)
       | TypeError _ =>
           raise (DataValidationError
                    "Invalid pet: body of request contained bad or no data")
       | _ => raise e
       end) ;;
  ret self.

(** def self_url(self) *)
Definition self_url (request : Request) (self : ref) : M string :=
  o <- deref self ;;
  url_for_get_pets (url_root request) (id (obj_pet o)).

(** ** The views *)

(** GET /pets *)
Definition list_pets (request : Request) : M Response :=
  let category := args_get "category" (args request) in
  pets <- (if truthy category
           then query_filter_category category
           else query_all) ;;
  results <- for_each serialize pets ;;
  ret (make_response (jsonify (JArr results)) HTTP_200_OK []).

(** GET /pets/<int:id> *)
Definition get_pets (i : Z) : M Response :=
  pet <- query_get i ;;
  match pet with
  | None =>
      raise (NotFound ("Pet with id '" ++ format_int i ++ "' was not found.")%string)
  | Some pet =>
      d <- serialize pet ;;
      ret (make_response (jsonify d) HTTP_200_OK [])
  end.

(** POST /pets *)
Definition create_pets (request : Request) : M Response :=
  pet <- Pet_new ;;
  deserialize pet (get_json request) ;;
  session_add pet ;;
  session_commit ;;
  message <- serialize pet ;;
  location <- self_url request pet ;;
  ret (make_response (jsonify message) HTTP_201_CREATED
                     [("Location", location)]).

(** PUT /pets/<int:id> *)
Definition update_pets (request : Request) (i : Z) : M Response :=
  pet <- query_get_or_404 i ;;
  deserialize pet (get_json request) ;;
  session_commit ;;
  d <- serialize pet ;;
  ret (make_response (jsonify d) HTTP_200_OK []).

(** DELETE /pets/<int:id> *)
Definition delete_pets (i : Z) : M Response :=
  pet <- query_get i ;;
  match pet with
  | Some pet => session_delete pet ;; session_commit
  | None => ret tt
  end ;;
  ret (make_response (Text "") HTTP_204_NO_CONTENT []).

(** One request: the view runs in a new session on the table [t]; an
    exception goes to its handler; the session is removed, and only the
    committed table is left. *)
Definition full_dispatch_request (view : M Response) (t : Table)
    : Response * Table :=
  match view (mkWorld t []) with
  | (Return rv, w) => (rv, db w)
  | (Raise e, w) => (handle_user_exception e, db w)
  end.

(** ** Small runs *)

Definition fido : json := JObj [("name", JStr "fido"); ("category", JStr "dog")].
Definition kitty : json := JObj [("name", JStr "kitty"); ("category", JStr "cat")].
Definition post (body : json) : Request := mkRequest [] body "http://localhost:5000/".
Definition query (a : list (string * string)) : Request :=
  mkRequest a JNull "http://localhost:5000/".

Definition rex : Row := mkRow 1 (JStr "fido") (JStr "dog").
Definition tom : Row := mkRow 2 (JStr "kitty") (JStr "cat").

(** ** Predicates on request bodies *)

Definition is_object (j : json) : bool :=
  match j with
  | JObj _ => true
  | _ => false
  end.

(** [key in data], for a dict; false for anything else. *)
Definition has_key (key : string) (j : json) : bool :=
  match j with
  | JObj members =>
      match lookup key members with
      | Some _ => true
      | None => false
      end
  | _ => false
  end.

(** A body [deserialize] rejects: not an object, or an object that lacks
    one of the two required keys. *)
Definition invalid_body (j : json) : Prop :=
  is_object j = false \/ has_key "name" j = false \/ has_key "category" j = false.

(** The instance a row is loaded as, and its serialization. *)
Definition row_pet (r : Row) : Pet :=
  mkPet (Some (row_id r)) (row_name r) (row_category r).

Definition row_dict (r : Row) : json := pet_dict (row_pet r).

(** The message of the except-TypeError branch of [deserialize]. *)
Definition bad_data_message : string :=
  "Invalid pet: body of request contained bad or no data".

(** [o] after [self.name = vn; self.category = vc]. *)
Definition assigned (o : Obj) (vn vc : json) : Obj :=
  mkObj (mkPet (id (obj_pet o)) vn vc) (obj_state o) true.

(** The responses of the views that succeed. *)
Definition ok_json (j : json) : Response :=
  make_response (jsonify j) HTTP_200_OK [].

Definition no_content : Response :=
  make_response (Text "") HTTP_204_NO_CONTENT [].

(** Unfolds the monad's plumbing in a run of a view. *)
Ltac run_view :=
  unfold bind, try_except, ret, raise, deref, store, alloc; cbn.

(** ** The other error handlers *)

Definition HTTP_405_METHOD_NOT_ALLOWED : Z := 405.

(** @app.errorhandler(400) *)
Definition bad_request (e_message : string) : Response :=
  make_response (jsonify (error_envelope 400 "Bad Request" e_message))
                HTTP_400_BAD_REQUEST [].

(** @app.errorhandler(405) *)
Definition method_not_allowed : Response :=
  make_response
    (jsonify (error_envelope 405 "Method not Allowed"
                "Your request method is not supported. Check your HTTP method and try again."))
    HTTP_405_METHOD_NOT_ALLOWED [].

(** An error response whose JSON body repeats the status of the response. *)
Definition is_envelope (r : Response) : Prop :=
  exists error message,
    data r = Json (error_envelope (status_code r) error message).

(** ** Requests in sequence *)

(** A request to one of the five routes on /pets, as the [@app.route]
    decorators bind them to the views. *)
Inductive call : Type :=
| GET_pets (request : Request)
| GET_pets_id (i : Z)
| POST_pets (request : Request)
| PUT_pets_id (request : Request) (i : Z)
| DELETE_pets_id (i : Z).

Definition serve (c : call) (t : Table) : Response * Table :=
  match c with
  | GET_pets request => full_dispatch_request (list_pets request) t
  | GET_pets_id i => full_dispatch_request (get_pets i) t
  | POST_pets request => full_dispatch_request (create_pets request) t
  | PUT_pets_id request i => full_dispatch_request (update_pets request i) t
  | DELETE_pets_id i => full_dispatch_request (delete_pets i) t
  end.

(** The table after a sequence of requests, each served on the table the
    one before left. *)
Fixpoint serve_all (cs : list call) (t : Table) : Table :=
  match cs with
  | [] => t
  | c :: rest => serve_all rest (snd (serve c t))
  end.

(** The primary key is a key, and the keys are positive. *)
Definition unique_ids (t : Table) : Prop := NoDup (map row_id t).

Definition positive_ids (t : Table) : Prop :=
  forall r, In r t -> 0 < row_id r.

(** The rows [list_pets] selects for a value of [request.args.get]. *)
Definition selected (category : option string) (t : Table) : Table :=
  if truthy category then filter (category_is category) t else t.

(** ** Values and the columns *)

(** A value a String column holds as it is given: a text or None. *)
Definition text_or_null (v : json) : bool :=
  match v with
  | JNull | JStr _ => true
  | _ => false
  end.

(** A value the driver can bind. *)
Definition bindable (v : json) : bool :=
  match bind_param v with
  | Return _ => true
  | Raise _ => false
  end.

(** The answer of a POST that stored [n] and [c] under the id [i]. *)
Definition created (request : Request) (i : Z) (n c : json) : Response :=
  make_response
    (jsonify (JObj [("id", JInt i); ("name", n); ("category", c)]))
    HTTP_201_CREATED
    [("Location", (url_root request ++ "pets/" ++ format_int i)%string)].

(** * Lemmas *)

(** ** The heap *)

Lemma nth_error_set_nth {A} (l : list A) (n : nat) (a b : A) :
  nth_error l n = Some b -> nth_error (set_nth n a l) n = Some a.
Proof.
  revert n; induction l as [|x l IH]; intros [|n] H; simpl in *;
    try discriminate; auto.
Qed.

Lemma set_nth_twice {A} (l : list A) (n : nat) (a b : A) :
  set_nth n a (set_nth n b l) = set_nth n a l.
Proof.
  revert n; induction l as [|x l IH]; intros [|n]; simpl; auto.
  now rewrite IH.
Qed.

Lemma nth_error_alloc {A} (l : list A) (a : A) :
  nth_error (l ++ [a]) (List.length l) = Some a.
Proof.
  induction l; simpl; auto.
Qed.

(** ** The table *)

Lemma find_row_id (i : Z) (t : Table) (r : Row) :
  find_row i t = Some r -> row_id r = i /\ In r t.
Proof.
  unfold find_row; intros H.
  apply find_some in H as [Hin Heq].
  split; [now apply Z.eqb_eq | exact Hin].
Qed.

Lemma find_row_none (i : Z) (t : Table) :
  find_row i t = None <-> (forall r, In r t -> row_id r <> i).
Proof.
  unfold find_row; split.
  - intros H r Hin Heq.
    pose proof (find_none _ _ H r Hin) as Hn; simpl in Hn.
    apply Z.eqb_neq in Hn; contradiction.
  - intros H.
    destruct (find _ t) as [r|] eqn:E; auto.
    apply find_some in E as [Hin Heq].
    apply Z.eqb_eq in Heq.
    now elim (H r Hin).
Qed.

Lemma delete_row_absent (i : Z) (t : Table) :
  find_row i t = None -> delete_row i t = t.
Proof.
  unfold find_row, delete_row.
  induction t as [|r t IH]; simpl; auto.
  destruct (row_id r =? i) eqn:E; simpl; [discriminate|].
  intros H; now rewrite IH.
Qed.

Lemma find_row_delete_row (i : Z) (t : Table) :
  find_row i (delete_row i t) = None.
Proof.
  unfold find_row, delete_row.
  induction t as [|r t IH]; simpl; auto.
  destruct (row_id r =? i) eqn:E; simpl; auto.
  now rewrite E.
Qed.

Lemma max_id_bound (t : Table) (r : Row) :
  In r t -> exists m, max_id t = Some m /\ row_id r <= m.
Proof.
  induction t as [|x t IH]; simpl; [tauto|].
  intros [->|Hin].
  - destruct (max_id t) as [m|]; eexists; split; eauto; lia.
  - destruct (IH Hin) as [m [-> Hle]].
    eexists; split; eauto; lia.
Qed.

Lemma next_id_unused (t : Table) : find_row (next_id t) t = None.
Proof.
  apply find_row_none; intros r Hin.
  destruct (max_id_bound t r Hin) as [m [Hm Hle]].
  unfold next_id; rewrite Hm; lia.
Qed.

Lemma find_row_insert_new (t : Table) (r : Row) :
  find_row (row_id r) t = None ->
  find_row (row_id r) (insert_row r t) = Some r.
Proof.
  unfold find_row, insert_row.
  induction t as [|x t IH]; simpl.
  - now rewrite Z.eqb_refl.
  - destruct (row_id x =? row_id r); [discriminate | exact IH].
Qed.

Lemma find_row_insert_old (t : Table) (r x : Row) (i : Z) :
  find_row i t = Some x -> find_row i (insert_row r t) = Some x.
Proof.
  unfold find_row, insert_row.
  induction t as [|y t IH]; simpl; [discriminate|].
  destruct (row_id y =? i); auto.
Qed.

Lemma category_is_spec (c : string) (r : Row) :
  category_is (Some c) r = true <-> row_category r = JStr c.
Proof.
  unfold category_is.
  destruct (row_category r); split; try discriminate.
  - intros H; apply String.eqb_eq in H; now subst.
  - intros H; injection H as ->; apply String.eqb_refl.
Qed.

(** ** deserialize *)

Lemma deserialize_not_object (self : ref) (body : json) (w : World) :
  is_object body = false ->
  deserialize self body w = (Raise (DataValidationError bad_data_message), w).
Proof.
  intros H; unfold deserialize.
  destruct body; try discriminate; reflexivity.
Qed.

Lemma deserialize_missing_name (self : ref) (members : list (string * json))
    (w : World) :
  lookup "name" members = None ->
  deserialize self (JObj members) w
  = (Raise (DataValidationError "Invalid pet: missing name"), w).
Proof.
  intros H; unfold deserialize, getitem; run_view.
  now rewrite H.
Qed.

Lemma deserialize_missing_category (self : ref)
    (members : list (string * json)) (vn : json) (o : Obj) (w : World) :
  nth_error (heap w) self = Some o ->
  lookup "name" members = Some vn ->
  lookup "category" members = None ->
  deserialize self (JObj members) w
  = (Raise (DataValidationError "Invalid pet: missing category"),
     mkWorld (db w)
             (set_nth self (assigned o vn (category (obj_pet o))) (heap w))).
Proof.
  intros Ho Hn Hc.
  unfold deserialize, getitem, set_name, set_category; run_view.
  rewrite Hn; cbn. rewrite Ho; cbn. now rewrite Hc.
Qed.

Lemma deserialize_valid (self : ref) (members : list (string * json))
    (vn vc : json) (o : Obj) (w : World) :
  nth_error (heap w) self = Some o ->
  lookup "name" members = Some vn ->
  lookup "category" members = Some vc ->
  deserialize self (JObj members) w
  = (Return self, mkWorld (db w) (set_nth self (assigned o vn vc) (heap w))).
Proof.
  intros Ho Hn Hc.
  unfold deserialize, getitem, set_name, set_category; run_view.
  rewrite Hn; cbn. rewrite Ho; cbn. rewrite Hc; cbn.
  rewrite (nth_error_set_nth _ _ _ _ Ho); cbn.
  now rewrite set_nth_twice.
Qed.

(** Whatever the body, [deserialize] does not touch the table. *)
Lemma deserialize_invalid (self : ref) (body : json) (o : Obj) (w : World) :
  nth_error (heap w) self = Some o ->
  invalid_body body ->
  exists message w',
    deserialize self body w = (Raise (DataValidationError message), w')
    /\ db w' = db w
    /\ (is_object body = false -> message = bad_data_message)
    /\ (is_object body = true ->
        exists key, (key = "name" \/ key = "category")
                    /\ has_key key body = false
                    /\ message = ("Invalid pet: missing " ++ key)%string).
Proof.
  intros Ho Hbad.
  destruct (is_object body) eqn:Eobj.
  - destruct body as [| | | | | |members]; try discriminate.
    destruct (lookup "name" members) as [vn|] eqn:En.
    + destruct (lookup "category" members) as [vc|] eqn:Ec.
      * exfalso. unfold invalid_body in Hbad; cbn in Hbad.
        rewrite En, Ec in Hbad.
        destruct Hbad as [H|[H|H]]; discriminate.
      * eexists _, _; split;
          [apply (deserialize_missing_category _ _ _ _ _ Ho En Ec)|].
        split; [reflexivity|]. split; [discriminate|].
        intros _; exists "category"; cbn; rewrite Ec; auto.
    + eexists _, _; split; [apply (deserialize_missing_name _ _ _ En)|].
      split; [reflexivity|]. split; [discriminate|].
      intros _; exists "name"; cbn; rewrite En; auto.
  - eexists _, _; split; [apply (deserialize_not_object _ _ _ Eobj)|].
    split; [reflexivity|]. split; [reflexivity | discriminate].
Qed.

(** ** Queries over a whole table *)

Lemma for_each_load (rows : list Row) (w : World) :
  for_each load rows w
  = (Return (seq (List.length (heap w)) (List.length rows)),
     mkWorld (db w)
             (heap w ++ map (fun r => mkObj (row_pet r) Persistent false) rows)).
Proof.
  revert w; induction rows as [|r rows IH]; intros [t h]; cbn.
  - unfold ret; now rewrite app_nil_r.
  - unfold bind, load, alloc, ret; cbn.
    fold (@for_each Row ref load rows).
    rewrite IH; cbn.
    rewrite length_app, <- app_assoc; cbn.
    now rewrite Nat.add_1_r.
Qed.

Lemma serialize_at (self : ref) (o : Obj) (w : World) :
  nth_error (heap w) self = Some o ->
  serialize self w = (Return (pet_dict (obj_pet o)), w).
Proof.
  intros H; unfold serialize, bind, deref, ret; now rewrite H.
Qed.

Lemma for_each_serialize (t : Table) (h : list Obj) (rows : list Row) :
  for_each serialize (seq (List.length h) (List.length rows))
    (mkWorld t (h ++ map (fun r => mkObj (row_pet r) Persistent false) rows))
  = (Return (map row_dict rows),
     mkWorld t (h ++ map (fun r => mkObj (row_pet r) Persistent false) rows)).
Proof.
  revert h; induction rows as [|r rows IH]; intros h; cbn.
  - reflexivity.
  - unfold bind at 1.
    rewrite (serialize_at _ (mkObj (row_pet r) Persistent false))
      by (cbn; rewrite nth_error_app2, Nat.sub_diag by lia; reflexivity).
    unfold bind at 1.
    specialize (IH (h ++ [mkObj (row_pet r) Persistent false])).
    rewrite length_app, <- app_assoc, Nat.add_1_r in IH; cbn in IH.
    now rewrite IH.
Qed.

(** ** The views in closed form *)

Lemma list_pets_all (request : Request) (t : Table) :
  args_get "category" (args request) = None
  \/ args_get "category" (args request) = Some "" ->
  full_dispatch_request (list_pets request) t
  = (ok_json (JArr (map row_dict t)), t).
Proof.
  intros H.
  unfold full_dispatch_request, list_pets.
  assert (E : truthy (args_get "category" (args request)) = false)
    by (destruct H as [-> | ->]; reflexivity).
  rewrite E; unfold bind at 1, query_all.
  rewrite for_each_load; cbn [db heap List.length app].
  unfold bind at 1.
  pose proof (for_each_serialize t [] t) as S.
  cbn [List.length app] in S; now rewrite S.
Qed.

Lemma list_pets_filtered (request : Request) (t : Table) (c : string) :
  args_get "category" (args request) = Some c ->
  c <> "" ->
  full_dispatch_request (list_pets request) t
  = (ok_json (JArr (map row_dict (filter (category_is (Some c)) t))), t).
Proof.
  intros H Hc.
  unfold full_dispatch_request, list_pets.
  rewrite H; unfold truthy.
  destruct (String.eqb c "") eqn:E; [apply String.eqb_eq in E; contradiction|].
  cbn [negb].
  unfold bind at 1, query_filter_category.
  rewrite for_each_load; cbn [db heap List.length app].
  unfold bind at 1.
  pose proof (for_each_serialize t [] (filter (category_is (Some c)) t)) as S.
  cbn [List.length app] in S; now rewrite S.
Qed.

Lemma bind_param_text (v : json) :
  text_or_null v = true -> bind_param v = Return v.
Proof.
  destruct v; cbn; intros H; try discriminate H; reflexivity.
Qed.

Lemma bindable_true (v : json) :
  bindable v = true -> exists s, bind_param v = Return s.
Proof.
  unfold bindable; destruct (bind_param v) as [s|e]; [eauto | discriminate].
Qed.

Lemma bind_param_raises (v : json) (e : exn) :
  bind_param v = Raise e -> handle_user_exception e = internal_error.
Proof.
  destruct v; cbn; try discriminate.
  - destruct (fits_int64 n); [discriminate|].
    intros H; injection H as <-; reflexivity.
  - intros H; injection H as <-; reflexivity.
  - intros H; injection H as <-; reflexivity.
Qed.

Lemma written_raises (old new : json) (e : exn) :
  written old new = Raise e -> handle_user_exception e = internal_error.
Proof.
  unfold written; destruct (same_value old new); [discriminate|].
  apply bind_param_raises.
Qed.

Lemma same_value_refl (v : json) : same_value v v = true.
Proof.
  revert v.
  fix IH 1; intros [| b | n | l | s | xs | xs]; cbn.
  - reflexivity.
  - apply Bool.eqb_reflx.
  - apply Z.eqb_refl.
  - apply String.eqb_refl.
  - apply String.eqb_refl.
  - induction xs as [|x xs IHxs]; [reflexivity|].
    now rewrite (IH x), IHxs.
  - induction xs as [|[k x] xs IHxs]; [reflexivity|].
    now rewrite String.eqb_refl, (IH x), IHxs.
Qed.

Lemma same_value_text (old v : json) :
  text_or_null v = true -> same_value old v = true -> old = v.
Proof.
  destruct v; try discriminate; intros _; destruct old; cbn; try discriminate.
  - reflexivity.
  - intros H; apply String.eqb_eq in H; now subst.
Qed.

Lemma written_text (old v : json) :
  text_or_null v = true -> written old v = Return v.
Proof.
  intros H; unfold written.
  destruct (same_value old v) eqn:E.
  - now rewrite (same_value_text old v H E).
  - now apply bind_param_text.
Qed.

Lemma written_refl (v : json) : written v v = Return v.
Proof.
  unfold written; now rewrite same_value_refl.
Qed.

(** What an UPDATE wrote is what the same assignment writes again. *)
Lemma written_again (old new s : json) :
  written old new = Return s -> written s new = Return s.
Proof.
  unfold written.
  destruct (same_value old new) eqn:E.
  - intros H; injection H as <-; now rewrite E.
  - intros H; destruct (same_value s new); [reflexivity | exact H].
Qed.

Lemma query_get_found (i : Z) (r : Row) (w : World) :
  find_row i (db w) = Some r ->
  query_get i w
  = (Return (Some (List.length (heap w))),
     mkWorld (db w) (heap w ++ [mkObj (row_pet r) Persistent false])).
Proof.
  intros H; unfold query_get; now rewrite H.
Qed.

Lemma query_get_missing (i : Z) (w : World) :
  find_row i (db w) = None ->
  fits_int64 i = true ->
  query_get i w = (Return None, w).
Proof.
  intros H Hf; unfold query_get; now rewrite H, Hf.
Qed.

Lemma query_get_overflow (i : Z) (w : World) :
  find_row i (db w) = None ->
  fits_int64 i = false ->
  query_get i w = (Raise OverflowError, w).
Proof.
  intros H Hf; unfold query_get; now rewrite H, Hf.
Qed.

(** In a table whose keys fit, an id that does not fit always overflows. *)
Lemma query_get_out_of_range (i : Z) (w : World) :
  (forall r, In r (db w) -> fits_int64 (row_id r) = true) ->
  fits_int64 i = false ->
  query_get i w = (Raise OverflowError, w).
Proof.
  intros Hkeys Hf; apply query_get_overflow; [|exact Hf].
  apply find_row_none; intros r Hin Heq.
  rewrite <- Heq, (Hkeys r Hin) in Hf; discriminate Hf.
Qed.

Lemma get_pets_found (i : Z) (t : Table) (r : Row) :
  find_row i t = Some r ->
  full_dispatch_request (get_pets i) t = (ok_json (row_dict r), t).
Proof.
  intros H.
  unfold full_dispatch_request, get_pets, bind at 1.
  now rewrite (query_get_found i r) by exact H.
Qed.

Lemma get_pets_missing (i : Z) (t : Table) :
  find_row i t = None ->
  fits_int64 i = true ->
  full_dispatch_request (get_pets i) t
  = (not_found ("Pet with id '" ++ format_int i ++ "' was not found.")%string, t).
Proof.
  intros H Hf.
  unfold full_dispatch_request, get_pets, bind at 1.
  now rewrite query_get_missing by assumption.
Qed.

Lemma get_pets_overflow (i : Z) (t : Table) :
  find_row i t = None ->
  fits_int64 i = false ->
  full_dispatch_request (get_pets i) t = (internal_error, t).
Proof.
  intros H Hf.
  unfold full_dispatch_request, get_pets, bind at 1.
  now rewrite query_get_overflow by assumption.
Qed.

Lemma create_pets_invalid (request : Request) (t : Table) :
  invalid_body (get_json request) ->
  exists message,
    full_dispatch_request (create_pets request) t
    = (request_validation_error message, t).
Proof.
  intros Hbad.
  unfold full_dispatch_request, create_pets, bind at 1, Pet_new, alloc.
  cbn [heap db List.length app].
  destruct (deserialize_invalid 0%nat (get_json request)
              (mkObj (mkPet None JNull JNull) Transient false)
              (mkWorld t [mkObj (mkPet None JNull JNull) Transient false])
              eq_refl Hbad)
    as (message & w' & E & Hdb & _).
  exists message.
  unfold bind at 1; rewrite E; cbn in *; now rewrite Hdb.
Qed.

(** A POST with a body [deserialize] takes, up to the commit. *)
Lemma create_pets_to_commit (request : Request) (t : Table)
    (members : list (string * json)) (vn vc : json) :
  get_json request = JObj members ->
  lookup "name" members = Some vn ->
  lookup "category" members = Some vc ->
  full_dispatch_request (create_pets request) t
  = match bind_param vn with
    | Raise e => (handle_user_exception e, t)
    | Return sn =>
        match bind_param vc with
        | Raise e => (handle_user_exception e, t)
        | Return sc =>
            (created request (next_id t) sn sc,
             insert_row (mkRow (next_id t) sn sc) t)
        end
    end.
Proof.
  intros Hj Hn Hc.
  unfold full_dispatch_request, create_pets, bind at 1, Pet_new, alloc.
  cbn [heap db List.length app].
  unfold bind at 1.
  rewrite Hj, (deserialize_valid 0%nat members vn vc
                 (mkObj (mkPet None JNull JNull) Transient false))
    by (auto; reflexivity).
  unfold bind at 1, session_add, bind at 1, deref, store.
  cbn [heap db nth_error set_nth assigned obj_pet obj_state obj_dirty].
  unfold bind at 1, session_commit.
  cbn [heap db flush flush_obj obj_pet obj_state obj_dirty name category id
       and_then].
  destruct (bind_param vn) as [sn|e]; cbn [and_then]; [|reflexivity].
  destruct (bind_param vc) as [sc|e]; cbn [and_then]; reflexivity.
Qed.

Lemma create_pets_stored (request : Request) (t : Table)
    (members : list (string * json)) (vn vc sn sc : json) :
  get_json request = JObj members ->
  lookup "name" members = Some vn ->
  lookup "category" members = Some vc ->
  bind_param vn = Return sn ->
  bind_param vc = Return sc ->
  full_dispatch_request (create_pets request) t
  = (created request (next_id t) sn sc,
     insert_row (mkRow (next_id t) sn sc) t).
Proof.
  intros Hj Hn Hc Bn Bc.
  now rewrite (create_pets_to_commit request t members vn vc Hj Hn Hc), Bn, Bc.
Qed.

Lemma create_pets_unbound (request : Request) (t : Table)
    (members : list (string * json)) (vn vc : json) :
  get_json request = JObj members ->
  lookup "name" members = Some vn ->
  lookup "category" members = Some vc ->
  bindable vn && bindable vc = false ->
  full_dispatch_request (create_pets request) t = (internal_error, t).
Proof.
  intros Hj Hn Hc Hb.
  rewrite (create_pets_to_commit request t members vn vc Hj Hn Hc).
  unfold bindable in Hb.
  destruct (bind_param vn) as [sn|e] eqn:Bn.
  - destruct (bind_param vc) as [sc|e] eqn:Bc; [discriminate Hb|].
    now rewrite (bind_param_raises vc e Bc).
  - now rewrite (bind_param_raises vn e Bn).
Qed.

Lemma update_pets_missing (request : Request) (i : Z) (t : Table) :
  find_row i t = None ->
  fits_int64 i = true ->
  full_dispatch_request (update_pets request i) t
  = (not_found default_not_found, t).
Proof.
  intros H Hf.
  unfold full_dispatch_request, update_pets, bind at 1, query_get_or_404,
    bind at 1.
  now rewrite query_get_missing by assumption.
Qed.

Lemma update_pets_overflow (request : Request) (i : Z) (t : Table) :
  find_row i t = None ->
  fits_int64 i = false ->
  full_dispatch_request (update_pets request i) t = (internal_error, t).
Proof.
  intros H Hf.
  unfold full_dispatch_request, update_pets, bind at 1, query_get_or_404,
    bind at 1.
  now rewrite query_get_overflow by assumption.
Qed.

Lemma update_pets_invalid (request : Request) (i : Z) (t : Table) (r : Row) :
  find_row i t = Some r ->
  invalid_body (get_json request) ->
  exists message,
    full_dispatch_request (update_pets request i) t
    = (request_validation_error message, t).
Proof.
  intros H Hbad.
  unfold full_dispatch_request, update_pets, bind at 1, query_get_or_404,
    bind at 1.
  rewrite (query_get_found i r) by exact H.
  cbn [heap db List.length app ret].
  destruct (deserialize_invalid 0%nat (get_json request)
              (mkObj (row_pet r) Persistent false)
              (mkWorld t [mkObj (row_pet r) Persistent false])
              eq_refl Hbad)
    as (message & w' & E & Hdb & _).
  exists message.
  unfold bind at 1; rewrite E; cbn in *; now rewrite Hdb.
Qed.

(** A PUT on a row with a body [deserialize] takes, up to the commit. *)
Lemma update_pets_to_commit (request : Request) (i : Z) (t : Table) (r : Row)
    (members : list (string * json)) (vn vc : json) :
  find_row i t = Some r ->
  get_json request = JObj members ->
  lookup "name" members = Some vn ->
  lookup "category" members = Some vc ->
  full_dispatch_request (update_pets request i) t
  = match written (row_name r) vn with
    | Raise e => (handle_user_exception e, t)
    | Return sn =>
        match written (row_category r) vc with
        | Raise e => (handle_user_exception e, t)
        | Return sc =>
            (ok_json (JObj [("id", JInt i); ("name", sn); ("category", sc)]),
             update_row i sn sc t)
        end
    end.
Proof.
  intros H Hj Hn Hc.
  destruct (find_row_id _ _ _ H) as [Hid _].
  unfold full_dispatch_request, update_pets, bind at 1, query_get_or_404,
    bind at 1.
  rewrite (query_get_found i r) by exact H.
  cbn [heap db List.length app ret].
  unfold bind at 1.
  rewrite Hj, (deserialize_valid 0%nat members vn vc
                 (mkObj (row_pet r) Persistent false))
    by (auto; reflexivity).
  unfold bind at 1, session_commit.
  cbn [heap db flush flush_obj set_nth assigned row_pet obj_pet obj_state
       obj_dirty name category id and_then].
  rewrite Hid, H.
  destruct (written (row_name r) vn) as [sn|e]; cbn [and_then]; [|reflexivity].
  destruct (written (row_category r) vc) as [sc|e]; cbn [and_then];
    reflexivity.
Qed.

Lemma update_pets_stored (request : Request) (i : Z) (t : Table) (r : Row)
    (members : list (string * json)) (vn vc sn sc : json) :
  find_row i t = Some r ->
  get_json request = JObj members ->
  lookup "name" members = Some vn ->
  lookup "category" members = Some vc ->
  written (row_name r) vn = Return sn ->
  written (row_category r) vc = Return sc ->
  full_dispatch_request (update_pets request i) t
  = (ok_json (JObj [("id", JInt i); ("name", sn); ("category", sc)]),
     update_row i sn sc t).
Proof.
  intros H Hj Hn Hc Wn Wc.
  now rewrite (update_pets_to_commit request i t r members vn vc H Hj Hn Hc),
    Wn, Wc.
Qed.

Lemma delete_pets_run (i : Z) (t : Table) :
  find_row i t <> None \/ fits_int64 i = true ->
  full_dispatch_request (delete_pets i) t = (no_content, delete_row i t).
Proof.
  intros Hok.
  unfold full_dispatch_request, delete_pets, bind at 1, bind at 1.
  destruct (find_row i t) as [r|] eqn:H.
  - destruct (find_row_id _ _ _ H) as [Hid _].
    rewrite (query_get_found i r) by exact H.
    cbn; now rewrite Hid.
  - destruct Hok as [Hne|Hf]; [now elim Hne|].
    rewrite query_get_missing by assumption.
    cbn; now rewrite delete_row_absent.
Qed.

Lemma delete_pets_overflow (i : Z) (t : Table) :
  find_row i t = None ->
  fits_int64 i = false ->
  full_dispatch_request (delete_pets i) t = (internal_error, t).
Proof.
  intros H Hf.
  unfold full_dispatch_request, delete_pets, bind at 1, bind at 1.
  now rewrite query_get_overflow by assumption.
Qed.

Lemma delete_pets_table (i : Z) (t : Table) :
  snd (full_dispatch_request (delete_pets i) t) = delete_row i t.
Proof.
  destruct (find_row i t) as [r|] eqn:E.
  - rewrite delete_pets_run; [reflexivity | left; congruence].
  - destruct (fits_int64 i) eqn:Hf.
    + rewrite delete_pets_run; [reflexivity | now right].
    + rewrite (delete_pets_overflow i t E Hf); cbn.
      symmetry; now apply delete_row_absent.
Qed.

Lemma body_cases (body : json) :
  invalid_body body
  \/ exists members vn vc,
       body = JObj members
       /\ lookup "name" members = Some vn
       /\ lookup "category" members = Some vc.
Proof.
  destruct body as [| | | | | |members];
    try (left; left; reflexivity).
  destruct (lookup "name" members) as [vn|] eqn:En.
  - destruct (lookup "category" members) as [vc|] eqn:Ec.
    + right; exists members, vn, vc; auto.
    + left; right; right; cbn; now rewrite Ec.
  - left; right; left; cbn; now rewrite En.
Qed.

(** * The contract *)

(** ** Creating *)

(** C1. A POST /pets whose body is not a JSON object, or is an object
    without the key [name] or without the key [category], is answered with
    status 400 and leaves the table as it was: no record is added. *)
Theorem create_pets_rejects_invalid_body (request : Request) (t : Table) :
  invalid_body (get_json request) ->
  status_code (fst (full_dispatch_request (create_pets request) t)) = 400
  /\ snd (full_dispatch_request (create_pets request) t) = t.
Proof.
  intros Hbad.
  destruct (create_pets_invalid request t Hbad) as [message ->].
  split; reflexivity.
Qed.

Lemma create_pets_rejects_invalid_body_witness :
  invalid_body (JObj [("category", JStr "cat")])
  /\ status_code
       (fst (full_dispatch_request
               (create_pets (post (JObj [("category", JStr "cat")]))) [rex]))
     = 400
  /\ snd (full_dispatch_request
            (create_pets (post (JObj [("category", JStr "cat")]))) [rex])
     = [rex].
Proof.
  assert (H : invalid_body (get_json (post (JObj [("category", JStr "cat")]))))
    by (right; left; reflexivity).
  split; [exact H|].
  exact (create_pets_rejects_invalid_body _ [rex] H).
Defined.

(** ** Deleting *)

(** C2, as the specification states it, fails for an id that the key of the
    table cannot hold: the id 2^63 is bound to the query, the driver raises
    OverflowError and the answer is 500, not 204. *)
Lemma delete_pets_huge_id_counterexample :
  status_code (fst (full_dispatch_request (delete_pets (2 ^ 63)) [rex])) = 500
  /\ status_code (fst (full_dispatch_request (delete_pets (2 ^ 63)) [rex])) <> 204.
Proof.
  split; [reflexivity | discriminate].
Qed.

(** C2 (amended). For every id that fits the 64-bit key of the table and
    every table, DELETE /pets/{id} answers 204 with an empty body, whether
    or not a row has that id; a second DELETE of the same id answers 204
    again; and when no row has the id the table is left unchanged. *)
Theorem delete_pets_idempotent (i : Z) (t : Table) :
  fits_int64 i = true ->
  let first := full_dispatch_request (delete_pets i) t in
  let second := full_dispatch_request (delete_pets i) (snd first) in
  (status_code (fst first) = 204 /\ data (fst first) = Text "")
  /\ (status_code (fst second) = 204 /\ data (fst second) = Text "")
  /\ (find_row i t = None -> snd first = t)
  /\ find_row i (snd first) = None
  /\ snd second = snd first.
Proof.
  intros Hf; cbv zeta.
  rewrite (delete_pets_run i t) by (now right); cbn [fst snd].
  rewrite (delete_pets_run i (delete_row i t)) by (now right); cbn [fst snd].
  repeat split.
  - apply delete_row_absent.
  - apply find_row_delete_row.
  - apply delete_row_absent, find_row_delete_row.
Qed.

Lemma delete_pets_idempotent_witness :
  fits_int64 7 = true
  /\ find_row 7 [rex; tom] = None
  /\ status_code (fst (full_dispatch_request (delete_pets 7) [rex; tom])) = 204
  /\ snd (full_dispatch_request (delete_pets 7) [rex; tom]) = [rex; tom].
Proof.
  assert (Hf : fits_int64 7 = true) by reflexivity.
  assert (H : find_row 7 [rex; tom] = None) by reflexivity.
  split; [exact Hf|]. split; [exact H|].
  split.
  - exact (proj1 (proj1 (delete_pets_idempotent 7 [rex; tom] Hf))).
  - exact (proj1 (proj2 (proj2 (delete_pets_idempotent 7 [rex; tom] Hf))) H).
Defined.

(** ** Listing *)

(** C3, as the specification states it, fails for the empty string: with
    [?category=] the one row of the table, whose category is ["dog"], is
    returned, although no row has the empty category. *)
Lemma list_pets_empty_category_counterexample :
  full_dispatch_request (list_pets (query [("category", "")])) [rex]
  = (ok_json (JArr [row_dict rex]), [rex])
  /\ full_dispatch_request (list_pets (query [("category", "")])) [rex]
     <> (ok_json (JArr (map row_dict (filter (category_is (Some "")) [rex]))), [rex])
  /\ row_category rex <> JStr "".
Proof.
  split; [reflexivity|].
  split; cbn; intros H; discriminate H.
Qed.

(** C3 (amended). For every non-empty string X and every table,
    GET /pets?category=X returns, in the order of the table, the
    serialization of exactly the rows whose [category] is the string X
    (equality of strings, no partial match); without a [category] parameter
    it returns every row. *)
Theorem list_pets_exact_category (request : Request) (t : Table) :
  (forall c : string,
      args_get "category" (args request) = Some c ->
      c <> "" ->
      full_dispatch_request (list_pets request) t
      = (ok_json (JArr (map row_dict (filter (category_is (Some c)) t))), t)
      /\ (forall r, In r (filter (category_is (Some c)) t)
                    <-> In r t /\ row_category r = JStr c))
  /\ (args_get "category" (args request) = None ->
      full_dispatch_request (list_pets request) t
      = (ok_json (JArr (map row_dict t)), t)).
Proof.
  split.
  - intros c Hc Hne; split.
    + now apply list_pets_filtered.
    + intros r; rewrite filter_In, category_is_spec; tauto.
  - intros H; apply list_pets_all; now left.
Qed.

Lemma list_pets_exact_category_witness :
  (args_get "category" (args (query [("category", "cat")])) = Some "cat"
   /\ "cat" <> ""
   /\ full_dispatch_request (list_pets (query [("category", "cat")])) [rex; tom]
      = (ok_json (JArr [row_dict tom]), [rex; tom]))
  /\ (args_get "category" (args (query [])) = None
      /\ full_dispatch_request (list_pets (query [])) [rex; tom]
         = (ok_json (JArr [row_dict rex; row_dict tom]), [rex; tom])).
Proof.
  assert (H1 : args_get "category" (args (query [("category", "cat")])) = Some "cat")
    by reflexivity.
  assert (H2 : "cat" <> "") by discriminate.
  assert (H3 : args_get "category" (args (query [])) = None) by reflexivity.
  split.
  - split; [exact H1|]. split; [exact H2|].
    exact (proj1 (proj1 (list_pets_exact_category
                           (query [("category", "cat")]) [rex; tom])
                        "cat" H1 H2)).
  - split; [exact H3|].
    exact (proj2 (list_pets_exact_category (query []) [rex; tom]) H3).
Defined.

(** C10. When the [category] parameter is present and empty, GET /pets
    returns every row of the table, as it does without the parameter; the
    filter is applied only for a non-empty value. *)
Theorem list_pets_empty_category_returns_all (request : Request) (t : Table) :
  args_get "category" (args request) = Some "" ->
  full_dispatch_request (list_pets request) t
  = (ok_json (JArr (map row_dict t)), t)
  /\ full_dispatch_request (list_pets request) t
     = full_dispatch_request
         (list_pets (mkRequest [] (get_json request) (url_root request))) t.
Proof.
  intros H; split.
  - apply list_pets_all; now right.
  - rewrite !list_pets_all; auto.
Qed.

Lemma list_pets_empty_category_returns_all_witness :
  args_get "category" (args (query [("category", "")])) = Some ""
  /\ full_dispatch_request (list_pets (query [("category", "")])) [rex; tom]
     = (ok_json (JArr [row_dict rex; row_dict tom]), [rex; tom]).
Proof.
  assert (H : args_get "category" (args (query [("category", "")])) = Some "")
    by reflexivity.
  split; [exact H|].
  exact (proj1 (list_pets_empty_category_returns_all
                  (query [("category", "")]) [rex; tom] H)).
Defined.

(** ** Updating *)

(** C4, as the specification states it, fails for an id that the key of the
    table cannot hold: no row has the id 2^63, and the answer is 500, not
    404. *)
Lemma update_pets_huge_id_counterexample :
  find_row (2 ^ 63) [rex] = None
  /\ status_code
       (fst (full_dispatch_request (update_pets (post fido) (2 ^ 63)) [rex]))
     = 500
  /\ status_code
       (fst (full_dispatch_request (update_pets (post fido) (2 ^ 63)) [rex]))
     <> 404.
Proof.
  split; [reflexivity|]. split; [reflexivity | discriminate].
Qed.

(** C4 (amended). A PUT /pets/{id} for an id that fits the 64-bit key of the
    table and that no row has is answered with status 404, whatever the
    body, and leaves the table as it was: no row with that id is created. *)
Theorem update_pets_unknown_id (request : Request) (i : Z) (t : Table) :
  fits_int64 i = true ->
  find_row i t = None ->
  status_code (fst (full_dispatch_request (update_pets request i) t)) = 404
  /\ snd (full_dispatch_request (update_pets request i) t) = t
  /\ find_row i (snd (full_dispatch_request (update_pets request i) t)) = None.
Proof.
  intros Hf H.
  rewrite update_pets_missing by assumption.
  repeat split; exact H.
Qed.

Lemma update_pets_unknown_id_witness :
  fits_int64 3 = true
  /\ find_row 3 [rex; tom] = None
  /\ status_code (fst (full_dispatch_request (update_pets (post fido) 3) [rex; tom]))
     = 404
  /\ snd (full_dispatch_request (update_pets (post fido) 3) [rex; tom])
     = [rex; tom].
Proof.
  assert (Hf : fits_int64 3 = true) by reflexivity.
  assert (H : find_row 3 [rex; tom] = None) by reflexivity.
  split; [exact Hf|]. split; [exact H|].
  split.
  - exact (proj1 (update_pets_unknown_id (post fido) 3 [rex; tom] Hf H)).
  - exact (proj1 (proj2 (update_pets_unknown_id (post fido) 3 [rex; tom] Hf H))).
Defined.

(** C9. A PUT /pets/{id} for an id that has a row, with a body that is not
    a JSON object or lacks [name] or [category], is answered with status 400
    and leaves the table as it was: the row of that id keeps its [name] and
    its [category].  (The instance in the session may have had its [name]
    assigned; without a commit that assignment is dropped with the
    session.) *)
Theorem update_pets_invalid_body_atomic (request : Request) (i : Z)
    (t : Table) (r : Row) :
  find_row i t = Some r ->
  invalid_body (get_json request) ->
  status_code (fst (full_dispatch_request (update_pets request i) t)) = 400
  /\ snd (full_dispatch_request (update_pets request i) t) = t
  /\ find_row i (snd (full_dispatch_request (update_pets request i) t)) = Some r.
Proof.
  intros H Hbad.
  destruct (update_pets_invalid request i t r H Hbad) as [message ->].
  repeat split; exact H.
Qed.

Lemma update_pets_invalid_body_atomic_witness :
  find_row 2 [rex; tom] = Some tom
  /\ invalid_body (JObj [("name", JStr "felix")])
  /\ status_code
       (fst (full_dispatch_request
               (update_pets (post (JObj [("name", JStr "felix")])) 2) [rex; tom]))
     = 400
  /\ snd (full_dispatch_request
            (update_pets (post (JObj [("name", JStr "felix")])) 2) [rex; tom])
     = [rex; tom].
Proof.
  assert (H : find_row 2 [rex; tom] = Some tom) by reflexivity.
  assert (Hbad : invalid_body (get_json (post (JObj [("name", JStr "felix")]))))
    by (right; right; reflexivity).
  split; [exact H|]. split; [exact Hbad|].
  split.
  - exact (proj1 (update_pets_invalid_body_atomic _ 2 [rex; tom] tom H Hbad)).
  - exact (proj1 (proj2 (update_pets_invalid_body_atomic _ 2 [rex; tom] tom H Hbad))).
Defined.

(** ** Serializing and deserializing *)

(** C5. For a JSON object with the keys [name] and [category],
    [deserialize] succeeds, leaves the [id] of the instance as it was (so a
    new instance keeps [id] unset, also when the object has a key [id]) and
    [serialize] of the instance then gives the [name] and the [category] of
    the object. *)
Theorem deserialize_serialize_roundtrip (members : list (string * json))
    (vn vc : json) (w : World) :
  lookup "name" members = Some vn ->
  lookup "category" members = Some vc ->
  (forall (self : ref) (o : Obj),
      nth_error (heap w) self = Some o ->
      exists w' o',
        deserialize self (JObj members) w = (Return self, w')
        /\ nth_error (heap w') self = Some o'
        /\ id (obj_pet o') = id (obj_pet o)
        /\ serialize self w'
           = (Return (JObj [("id", id_value (id (obj_pet o)));
                            ("name", vn); ("category", vc)]), w'))
  /\ exists w' out,
       (pet <- Pet_new ;; deserialize pet (JObj members) ;; serialize pet) w
       = (Return (JObj out), w')
       /\ lookup "id" out = Some JNull
       /\ lookup "name" out = lookup "name" members
       /\ lookup "category" out = lookup "category" members.
Proof.
  intros Hn Hc; split.
  - intros self o Ho.
    eexists _, (assigned o vn vc).
    split; [apply (deserialize_valid _ _ _ _ _ _ Ho Hn Hc)|].
    assert (Hs : nth_error (heap (mkWorld (db w) (set_nth self (assigned o vn vc) (heap w)))) self
                 = Some (assigned o vn vc))
      by (cbn; now apply nth_error_set_nth with (b := o)).
    split; [exact Hs|]. split; [reflexivity|].
    now rewrite (serialize_at _ _ _ Hs).
  - unfold bind at 1, Pet_new, alloc.
    unfold bind at 1.
    rewrite (deserialize_valid _ members vn vc
               (mkObj (mkPet None JNull JNull) Transient false))
      by (auto; cbn; apply nth_error_alloc).
    cbn [db heap].
    erewrite serialize_at
      by (cbn [heap]; eapply nth_error_set_nth, nth_error_alloc).
    eexists _, _; split; [reflexivity|].
    cbn; rewrite Hn, Hc; auto.
Qed.

Lemma deserialize_serialize_roundtrip_witness :
  let members := [("id", JInt 1); ("name", JStr "kitty"); ("category", JStr "cat")] in
  lookup "name" members = Some (JStr "kitty")
  /\ lookup "category" members = Some (JStr "cat")
  /\ exists w' out,
       (pet <- Pet_new ;; deserialize pet (JObj members) ;; serialize pet)
         (mkWorld [] [])
       = (Return (JObj out), w')
       /\ lookup "id" out = Some JNull
       /\ lookup "name" out = lookup "name" members
       /\ lookup "category" out = lookup "category" members.
Proof.
  cbv zeta.
  assert (Hn : lookup "name" [("id", JInt 1); ("name", JStr "kitty");
                              ("category", JStr "cat")] = Some (JStr "kitty"))
    by reflexivity.
  assert (Hc : lookup "category" [("id", JInt 1); ("name", JStr "kitty");
                                  ("category", JStr "cat")] = Some (JStr "cat"))
    by reflexivity.
  split; [exact Hn|]. split; [exact Hc|].
  exact (proj2 (deserialize_serialize_roundtrip _ _ _ (mkWorld [] []) Hn Hc)).
Defined.

(** C6 (the code departs from it).  [serialize] gives an object with the
    keys [id], [name] and [category], whose values are the attributes of the
    instance, and nothing else: the key [available], which the tests of the
    model expect, is not there. *)
Theorem serialize_omits_available (self : ref) (o : Obj) (w : World) :
  nth_error (heap w) self = Some o ->
  exists members,
    serialize self w = (Return (JObj members), w)
    /\ keys members = ["id"; "name"; "category"]
    /\ lookup "available" members = None.
Proof.
  intros H; rewrite (serialize_at _ _ _ H).
  eexists; split; [reflexivity|]; split; reflexivity.
Qed.

Lemma serialize_omits_available_witness :
  let w := mkWorld [] [mkObj (mkPet None (JStr "fido") (JStr "dog")) Transient true] in
  nth_error (heap w) 0 = Some (mkObj (mkPet None (JStr "fido") (JStr "dog")) Transient true)
  /\ exists members,
       serialize 0%nat w = (Return (JObj members), w)
       /\ keys members = ["id"; "name"; "category"]
       /\ lookup "available" members = None.
Proof.
  cbv zeta.
  assert (H : nth_error
                (heap (mkWorld [] [mkObj (mkPet None (JStr "fido") (JStr "dog"))
                                         Transient true])) 0
              = Some (mkObj (mkPet None (JStr "fido") (JStr "dog")) Transient true))
    by reflexivity.
  split; [exact H|].
  exact (serialize_omits_available 0%nat _ _ H).
Defined.

(** C7. [deserialize] of an object that lacks [name] or [category] raises
    DataValidationError with the message "Invalid pet: missing " followed by
    a required key the object lacks; [deserialize] of anything that is not
    an object (a string, null, a number, a list) raises DataValidationError
    with the message "Invalid pet: body of request contained bad or no
    data"; and the handler of DataValidationError answers with status 400
    and that message in the error envelope. *)
Theorem deserialize_validation_failures (self : ref) (body : json) (o : Obj)
    (w : World) :
  nth_error (heap w) self = Some o ->
  invalid_body body ->
  exists message w',
    deserialize self body w = (Raise (DataValidationError message), w')
    /\ (is_object body = false ->
        message = "Invalid pet: body of request contained bad or no data")
    /\ (is_object body = true ->
        exists key, (key = "name" \/ key = "category")
                    /\ has_key key body = false
                    /\ message = ("Invalid pet: missing " ++ key)%string)
    /\ handle_user_exception (DataValidationError message)
       = request_validation_error message
    /\ status_code (request_validation_error message) = 400
    /\ data (request_validation_error message)
       = Json (error_envelope 400 "Bad Request" message).
Proof.
  intros Ho Hbad.
  destruct (deserialize_invalid self body o w Ho Hbad)
    as (message & w' & E & _ & Hno & Hobj).
  exists message, w'; repeat split; auto.
Qed.

Lemma deserialize_validation_failures_witness :
  let w := mkWorld [] [mkObj (mkPet None JNull JNull) Transient false] in
  (invalid_body (JObj [("id", JInt 0); ("category", JStr "cat")])
   /\ exists message w',
        deserialize 0%nat (JObj [("id", JInt 0); ("category", JStr "cat")]) w
        = (Raise (DataValidationError message), w')
        /\ exists key, (key = "name" \/ key = "category")
                       /\ message = ("Invalid pet: missing " ++ key)%string)
  /\ (invalid_body (JStr "data")
      /\ exists message w',
           deserialize 0%nat (JStr "data") w
           = (Raise (DataValidationError message), w')
           /\ message = "Invalid pet: body of request contained bad or no data"
           /\ status_code (request_validation_error message) = 400).
Proof.
  cbv zeta.
  assert (Ho : nth_error
                 (heap (mkWorld [] [mkObj (mkPet None JNull JNull) Transient false])) 0
               = Some (mkObj (mkPet None JNull JNull) Transient false))
    by reflexivity.
  assert (H1 : invalid_body (JObj [("id", JInt 0); ("category", JStr "cat")]))
    by (right; left; reflexivity).
  assert (H2 : invalid_body (JStr "data")) by (left; reflexivity).
  split.
  - split; [exact H1|].
    destruct (deserialize_validation_failures 0%nat _ _ _ Ho H1)
      as (message & w' & E & _ & Hobj & _).
    exists message, w'; split; [exact E|].
    destruct (Hobj eq_refl) as (key & Hkey & _ & Hm).
    exists key; split; [exact Hkey | exact Hm].
  - split; [exact H2|].
    destruct (deserialize_validation_failures 0%nat _ _ _ Ho H2)
      as (message & w' & E & Hno & _ & _ & Hst & _).
    exists message, w'; split; [exact E|].
    split; [exact (Hno eq_refl) | exact Hst].
Defined.

(** ** Reading *)

(** C8, as the specification states it, fails in two places.  A Pet created
    with the number 5 as [name] is read back with the text "5": the column
    is a String.  And for the id 2^63, which no row has, the answer is 500,
    not 404. *)
Lemma get_pets_after_create_counterexample :
  status_code
    (fst (full_dispatch_request
            (create_pets (post (JObj [("name", JInt 5); ("category", JStr "dog")])))
            []))
  = 201
  /\ fst (full_dispatch_request (get_pets 1)
            (snd (full_dispatch_request
                    (create_pets
                       (post (JObj [("name", JInt 5); ("category", JStr "dog")])))
                    [])))
     = ok_json (JObj [("id", JInt 1); ("name", JStr "5"); ("category", JStr "dog")])
  /\ fst (full_dispatch_request (get_pets 1)
            (snd (full_dispatch_request
                    (create_pets
                       (post (JObj [("name", JInt 5); ("category", JStr "dog")])))
                    [])))
     <> ok_json (JObj [("id", JInt 1); ("name", JInt 5); ("category", JStr "dog")])
  /\ find_row (2 ^ 63) [rex] = None
  /\ status_code (fst (full_dispatch_request (get_pets (2 ^ 63)) [rex])) = 500.
Proof.
  split; [reflexivity|]. split; [reflexivity|].
  split; [discriminate|]. split; reflexivity.
Qed.

(** C8 (amended). When POST /pets creates a Pet (status 201), its body was
    an object with [name] and [category]; the response carries the assigned
    [id], and GET /pets/{id} with that id answers 200 with the object made
    of exactly [id] (the assigned one), [name] and [category], each of
    which is the value supplied when that value is a string or null.  For
    an id that fits the 64-bit key of the table and that no row has,
    GET /pets/{id} answers 404. *)
Theorem get_pets_after_create (request : Request) (t : Table) :
  (status_code (fst (full_dispatch_request (create_pets request) t)) = 201 ->
   exists members vn vc i sn sc,
     get_json request = JObj members
     /\ lookup "name" members = Some vn
     /\ lookup "category" members = Some vc
     /\ find_row i t = None
     /\ data (fst (full_dispatch_request (create_pets request) t))
        = Json (JObj [("id", JInt i); ("name", sn); ("category", sc)])
     /\ full_dispatch_request (get_pets i)
          (snd (full_dispatch_request (create_pets request) t))
        = (make_response
             (jsonify (JObj [("id", JInt i); ("name", sn); ("category", sc)]))
             HTTP_200_OK [],
           snd (full_dispatch_request (create_pets request) t))
     /\ (text_or_null vn = true -> sn = vn)
     /\ (text_or_null vc = true -> sc = vc))
  /\ (forall i : Z,
         fits_int64 i = true ->
         find_row i t = None ->
         status_code (fst (full_dispatch_request (get_pets i) t)) = 404
         /\ snd (full_dispatch_request (get_pets i) t) = t).
Proof.
  split.
  - intros Hst.
    destruct (body_cases (get_json request))
      as [Hbad | (members & vn & vc & Hj & Hn & Hc)].
    + destruct (create_pets_invalid request t Hbad) as [message E].
      rewrite E in Hst; discriminate Hst.
    + rewrite (create_pets_to_commit request t members vn vc Hj Hn Hc) in Hst |- *.
      destruct (bind_param vn) as [sn|e] eqn:Bn;
        [|rewrite (bind_param_raises vn e Bn) in Hst; discriminate Hst].
      destruct (bind_param vc) as [sc|e] eqn:Bc;
        [|rewrite (bind_param_raises vc e Bc) in Hst; discriminate Hst].
      exists members, vn, vc, (next_id t), sn, sc.
      cbn [fst snd].
      repeat split; auto using next_id_unused.
      * rewrite (get_pets_found (next_id t) _ (mkRow (next_id t) sn sc));
          [reflexivity|].
        apply (find_row_insert_new t (mkRow (next_id t) sn sc)), next_id_unused.
      * intros Ht; rewrite (bind_param_text vn Ht) in Bn; now injection Bn.
      * intros Ht; rewrite (bind_param_text vc Ht) in Bc; now injection Bc.
  - intros i Hf H; now rewrite get_pets_missing.
Qed.

Lemma get_pets_after_create_witness :
  status_code (fst (full_dispatch_request (create_pets (post kitty)) [rex])) = 201
  /\ (exists members vn vc i sn sc,
         get_json (post kitty) = JObj members
         /\ lookup "name" members = Some vn
         /\ lookup "category" members = Some vc
         /\ find_row i [rex] = None
         /\ data (fst (full_dispatch_request (create_pets (post kitty)) [rex]))
            = Json (JObj [("id", JInt i); ("name", sn); ("category", sc)])
         /\ full_dispatch_request (get_pets i)
              (snd (full_dispatch_request (create_pets (post kitty)) [rex]))
            = (make_response
                 (jsonify (JObj [("id", JInt i); ("name", sn); ("category", sc)]))
                 HTTP_200_OK [],
               snd (full_dispatch_request (create_pets (post kitty)) [rex]))
         /\ (text_or_null vn = true -> sn = vn)
         /\ (text_or_null vc = true -> sc = vc))
  /\ (fits_int64 5 = true
      /\ find_row 5 [rex] = None
      /\ status_code (fst (full_dispatch_request (get_pets 5) [rex])) = 404).
Proof.
  assert (H : status_code
                (fst (full_dispatch_request (create_pets (post kitty)) [rex])) = 201)
    by reflexivity.
  assert (Hf : fits_int64 5 = true) by reflexivity.
  assert (H5 : find_row 5 [rex] = None) by reflexivity.
  split; [exact H|].
  split.
  - exact (proj1 (get_pets_after_create (post kitty) [rex]) H).
  - split; [exact Hf|]. split; [exact H5|].
    exact (proj1 (proj2 (get_pets_after_create (post kitty) [rex]) 5 Hf H5)).
Defined.

(** ** The scenario of the specification *)

(** POST creates the first Pet with id 1 and a Location; GET returns the
    same body; DELETE answers 204; GET then answers 404. *)
Example scenario_create_get_delete :
  let created := full_dispatch_request (create_pets (post fido)) [] in
  let read := full_dispatch_request (get_pets 1) (snd created) in
  let deleted := full_dispatch_request (delete_pets 1) (snd read) in
  let gone := full_dispatch_request (get_pets 1) (snd deleted) in
  fst created
  = make_response
      (jsonify (JObj [("id", JInt 1); ("name", JStr "fido"); ("category", JStr "dog")]))
      HTTP_201_CREATED [("Location", "http://localhost:5000/pets/1")]
  /\ snd created = [rex]
  /\ fst read
     = ok_json (JObj [("id", JInt 1); ("name", JStr "fido"); ("category", JStr "dog")])
  /\ fst deleted = no_content
  /\ snd deleted = []
  /\ fst gone = not_found "Pet with id '1' was not found.".
Proof.
  cbv zeta; repeat split; reflexivity.
Qed.

(** A PUT replaces [name] and [category] and keeps the id. *)
Example scenario_update :
  full_dispatch_request (update_pets (post fido) 2) [rex; tom]
  = (ok_json (JObj [("id", JInt 2); ("name", JStr "fido"); ("category", JStr "dog")]),
     [rex; mkRow 2 (JStr "fido") (JStr "dog")]).
Proof.
  reflexivity.
Qed.

(** A body with [name] and no [category] makes [deserialize] assign
    [self.name] before it fails: the instance is changed, the table is not. *)
Example deserialize_assigns_name_before_failing :
  (pet <- query_get_or_404 2 ;; deserialize pet (JObj [("name", JStr "felix")]))
    (mkWorld [rex; tom] [])
  = (Raise (DataValidationError "Invalid pet: missing category"),
     mkWorld [rex; tom]
             [mkObj (mkPet (Some 2) (JStr "felix") (JStr "cat")) Persistent true]).
Proof.
  reflexivity.
Qed.

Example format_int_samples :
  format_int 0 = "0" /\ format_int 12 = "12" /\ format_int (-3) = "-3".
Proof.
  repeat split; reflexivity.
Qed.

(** * Beyond the claims *)

(** ** More on the table *)

Lemma update_row_ids (i : Z) (n c : json) (t : Table) :
  map row_id (update_row i n c t) = map row_id t.
Proof.
  unfold update_row; induction t as [|r t IH]; cbn; [reflexivity|].
  rewrite IH; f_equal.
  destruct (row_id r =? i) eqn:E; [symmetry; now apply Z.eqb_eq | reflexivity].
Qed.

Lemma find_row_update_same (i : Z) (n c : json) (t : Table) (r : Row) :
  find_row i t = Some r -> find_row i (update_row i n c t) = Some (mkRow i n c).
Proof.
  unfold find_row, update_row; induction t as [|x t IH]; cbn; [discriminate|].
  destruct (row_id x =? i) eqn:E; cbn.
  - now rewrite Z.eqb_refl.
  - now rewrite E.
Qed.

Lemma find_row_update_other (i j : Z) (n c : json) (t : Table) :
  j <> i -> find_row j (update_row i n c t) = find_row j t.
Proof.
  intros Hne; unfold find_row, update_row; induction t as [|x t IH]; cbn;
    [reflexivity|].
  destruct (row_id x =? i) eqn:E; cbn.
  - apply Z.eqb_eq in E.
    assert (Ei : (i =? j) = false) by (apply Z.eqb_neq; congruence).
    assert (Ex : (row_id x =? j) = false) by (apply Z.eqb_neq; congruence).
    now rewrite Ei, Ex.
  - destruct (row_id x =? j); [reflexivity | exact IH].
Qed.

Lemma update_row_absent (i : Z) (n c : json) (t : Table) :
  find_row i t = None -> update_row i n c t = t.
Proof.
  unfold find_row, update_row; induction t as [|x t IH]; cbn; [reflexivity|].
  destruct (row_id x =? i); [discriminate|].
  intros H; now rewrite IH.
Qed.

Lemma update_row_twice (i : Z) (n c n' c' : json) (t : Table) :
  update_row i n' c' (update_row i n c t) = update_row i n' c' t.
Proof.
  unfold update_row; induction t as [|x t IH]; cbn; [reflexivity|].
  rewrite IH; f_equal.
  destruct (row_id x =? i) eqn:E; cbn; [now rewrite Z.eqb_refl | now rewrite E].
Qed.

Lemma unique_ids_tail_absent (x : Row) (t : Table) :
  unique_ids (x :: t) -> find_row (row_id x) t = None.
Proof.
  unfold unique_ids; cbn; intros H.
  apply NoDup_cons_iff in H as [Hnot _].
  apply find_row_none; intros r Hin Heq.
  apply Hnot; rewrite <- Heq; now apply in_map.
Qed.

Lemma update_row_same_values (i : Z) (t : Table) (r : Row) :
  unique_ids t ->
  find_row i t = Some r ->
  update_row i (row_name r) (row_category r) t = t.
Proof.
  induction t as [|x t IH]; [discriminate|].
  intros Hu H.
  pose proof (unique_ids_tail_absent x t Hu) as Hx.
  unfold find_row in H; cbn in H |- *.
  destruct (row_id x =? i) eqn:E.
  - injection H as <-. apply Z.eqb_eq in E; subst i.
    destruct x as [xi xn xc]; cbn in *.
    f_equal. now apply update_row_absent.
  - f_equal. apply IH; [|exact H].
    unfold unique_ids in *; cbn in Hu; now apply NoDup_cons_iff in Hu.
Qed.

Lemma find_row_delete_other (i j : Z) (t : Table) :
  j <> i -> find_row j (delete_row i t) = find_row j t.
Proof.
  intros Hne; unfold find_row, delete_row; induction t as [|x t IH]; cbn;
    [reflexivity|].
  destruct (row_id x =? i) eqn:E; cbn.
  - apply Z.eqb_eq in E.
    assert (Ex : (row_id x =? j) = false) by (apply Z.eqb_neq; congruence).
    now rewrite Ex.
  - destruct (row_id x =? j); [reflexivity | exact IH].
Qed.

Lemma delete_row_In (i : Z) (t : Table) (r : Row) :
  In r (delete_row i t) <-> In r t /\ row_id r <> i.
Proof.
  unfold delete_row; rewrite filter_In, negb_true_iff, Z.eqb_neq; tauto.
Qed.

Lemma unique_ids_delete (i : Z) (t : Table) :
  unique_ids t -> unique_ids (delete_row i t).
Proof.
  unfold unique_ids, delete_row; induction t as [|x t IH]; cbn; [auto|].
  intros H; apply NoDup_cons_iff in H as [Hnot Hnd].
  destruct (negb (row_id x =? i)); cbn; [|auto].
  constructor; [|auto].
  intros Hin; apply Hnot.
  apply in_map_iff in Hin as (y & Hy & Hin).
  apply filter_In in Hin as [Hin _].
  rewrite <- Hy; now apply in_map.
Qed.

Lemma unique_ids_insert (r : Row) (t : Table) :
  unique_ids t -> find_row (row_id r) t = None -> unique_ids (insert_row r t).
Proof.
  unfold unique_ids, insert_row; intros Hu Hnone.
  rewrite map_app; cbn.
  apply NoDup_app; [exact Hu | repeat constructor; intros [] |].
  intros a Hin [<-|[]].
  apply in_map_iff in Hin as (y & Hy & Hin).
  rewrite find_row_none in Hnone.
  exact (Hnone y Hin Hy).
Qed.

Lemma max_id_positive (t : Table) (m : Z) :
  positive_ids t -> max_id t = Some m -> 0 < m.
Proof.
  revert m; induction t as [|x t IH]; cbn; [discriminate|].
  intros m Hp.
  assert (Hx : 0 < row_id x) by (apply Hp; now left).
  destruct (max_id t) as [k|]; intros H; injection H as <-; lia.
Qed.

Lemma next_id_positive (t : Table) : positive_ids t -> 0 < next_id t.
Proof.
  intros Hp; unfold next_id.
  destruct (max_id t) as [m|] eqn:E; [|lia].
  pose proof (max_id_positive t m Hp E); lia.
Qed.

Lemma valid_not_invalid (members : list (string * json)) (vn vc : json) :
  lookup "name" members = Some vn ->
  lookup "category" members = Some vc ->
  ~ invalid_body (JObj members).
Proof.
  intros Hn Hc [H|[H|H]]; cbn in H; try discriminate.
  - now rewrite Hn in H.
  - now rewrite Hc in H.
Qed.

Lemma list_pets_run (request : Request) (t : Table) :
  full_dispatch_request (list_pets request) t
  = (ok_json (JArr (map row_dict
                        (selected (args_get "category" (args request)) t))), t).
Proof.
  unfold selected.
  destruct (args_get "category" (args request)) as [c|] eqn:E.
  - destruct (String.eqb c "") eqn:Ec.
    + apply String.eqb_eq in Ec; subst c.
      rewrite list_pets_all by (now right); reflexivity.
    + rewrite (list_pets_filtered request t c E)
        by (intros ->; discriminate Ec).
      cbn; now rewrite Ec.
  - rewrite list_pets_all by (now left); reflexivity.
Qed.

Lemma bindable_written (old new : json) :
  bindable new = true -> exists s, written old new = Return s.
Proof.
  intros H; unfold written.
  destruct (same_value old new); [eauto | now apply bindable_true].
Qed.

(** A POST is answered 201 only when it stored a row. *)
Lemma create_pets_status_201 (request : Request) (t : Table) :
  status_code (fst (full_dispatch_request (create_pets request) t)) = 201 ->
  exists sn sc,
    full_dispatch_request (create_pets request) t
    = (created request (next_id t) sn sc,
       insert_row (mkRow (next_id t) sn sc) t).
Proof.
  intros Hst.
  destruct (body_cases (get_json request))
    as [Hbad | (members & vn & vc & Hj & Hn & Hc)].
  - destruct (create_pets_invalid request t Hbad) as [message E].
    rewrite E in Hst; discriminate Hst.
  - rewrite (create_pets_to_commit request t members vn vc Hj Hn Hc) in Hst |- *.
    destruct (bind_param vn) as [sn|e] eqn:Bn;
      [|rewrite (bind_param_raises vn e Bn) in Hst; discriminate Hst].
    destruct (bind_param vc) as [sc|e] eqn:Bc;
      [|rewrite (bind_param_raises vc e Bc) in Hst; discriminate Hst].
    now exists sn, sc.
Qed.

(** A PUT is answered 200 only when it found the row and wrote it. *)
Lemma update_pets_status_200 (request : Request) (i : Z) (t : Table) :
  status_code (fst (full_dispatch_request (update_pets request i) t)) = 200 ->
  exists r members vn vc sn sc,
    find_row i t = Some r
    /\ get_json request = JObj members
    /\ lookup "name" members = Some vn
    /\ lookup "category" members = Some vc
    /\ written (row_name r) vn = Return sn
    /\ written (row_category r) vc = Return sc.
Proof.
  intros Hst.
  destruct (find_row i t) as [r|] eqn:E.
  - destruct (body_cases (get_json request))
      as [Hbad | (members & vn & vc & Hj & Hn & Hc)].
    + destruct (update_pets_invalid request i t r E Hbad) as [message Em].
      rewrite Em in Hst; discriminate Hst.
    + rewrite (update_pets_to_commit request i t r members vn vc E Hj Hn Hc)
        in Hst.
      destruct (written (row_name r) vn) as [sn|e] eqn:Wn;
        [|rewrite (written_raises _ _ e Wn) in Hst; discriminate Hst].
      destruct (written (row_category r) vc) as [sc|e] eqn:Wc;
        [|rewrite (written_raises _ _ e Wc) in Hst; discriminate Hst].
      exists r, members, vn, vc, sn, sc; repeat split; assumption.
  - destruct (fits_int64 i) eqn:Hf.
    + rewrite (update_pets_missing request i t E Hf) in Hst; discriminate Hst.
    + rewrite (update_pets_overflow request i t E Hf) in Hst; discriminate Hst.
Qed.

(** ** Reading leaves the table alone *)

(** X1. GET /pets never fails and never changes the table: for every query
    string and every table it answers 200 with the JSON array of the
    serializations of the rows it selects, in the order of the table and
    once each: every row when the [category] parameter is absent or empty,
    and otherwise the rows that the filter on [category] keeps. *)
Theorem list_pets_read_only (request : Request) (t : Table) :
  full_dispatch_request (list_pets request) t
  = (make_response
       (jsonify
          (JArr (map row_dict
                     (if truthy (args_get "category" (args request))
                      then filter (category_is (args_get "category" (args request))) t
                      else t))))
       HTTP_200_OK [],
     t).
Proof.
  apply list_pets_run.
Qed.

(** X2. GET /pets/{id} never changes the table; when a row has the id it
    answers 200 with exactly [id], [name] and [category] of that row;
    when no row has it, it answers 404 with a message that names the id if
    the id fits the 64-bit key, and 500 if it does not. *)
Theorem get_pets_outcomes (i : Z) (t : Table) :
  snd (full_dispatch_request (get_pets i) t) = t
  /\ match find_row i t with
     | Some r =>
         fst (full_dispatch_request (get_pets i) t)
         = make_response
             (jsonify (JObj [("id", JInt i); ("name", row_name r);
                             ("category", row_category r)]))
             HTTP_200_OK []
     | None =>
         fst (full_dispatch_request (get_pets i) t)
         = if fits_int64 i
           then not_found
                  ("Pet with id '" ++ format_int i ++ "' was not found.")%string
           else internal_error
     end.
Proof.
  destruct (find_row i t) as [r|] eqn:E.
  - rewrite (get_pets_found i t r E).
    destruct (find_row_id _ _ _ E) as [<- _].
    split; reflexivity.
  - destruct (fits_int64 i) eqn:Hf.
    + rewrite (get_pets_missing i t E Hf); split; reflexivity.
    + rewrite (get_pets_overflow i t E Hf); split; reflexivity.
Qed.

(** ** Creating *)

(** X3. A POST /pets whose body is an object with [name] and [category],
    each a string or null, answers 201 with the new record and a Location
    header made of the URL root, "pets/" and the new id; the table gains one
    row, at its end, under an id no row had, and every row that could be
    found before is found unchanged. *)
Theorem create_pets_created (request : Request) (t : Table)
    (members : list (string * json)) (vn vc : json) :
  get_json request = JObj members ->
  lookup "name" members = Some vn ->
  lookup "category" members = Some vc ->
  text_or_null vn = true ->
  text_or_null vc = true ->
  exists i,
    full_dispatch_request (create_pets request) t
    = (make_response
         (jsonify (JObj [("id", JInt i); ("name", vn); ("category", vc)]))
         HTTP_201_CREATED
         [("Location", (url_root request ++ "pets/" ++ format_int i)%string)],
       t ++ [mkRow i vn vc])
    /\ find_row i t = None
    /\ (forall j r, find_row j t = Some r ->
                    find_row j (t ++ [mkRow i vn vc]) = Some r).
Proof.
  intros Hj Hn Hc Tn Tc.
  exists (next_id t).
  rewrite (create_pets_stored request t members vn vc vn vc Hj Hn Hc)
    by (now apply bind_param_text).
  split; [reflexivity|].
  split; [apply next_id_unused|].
  intros j r H; now apply find_row_insert_old.
Qed.

Lemma create_pets_created_witness :
  get_json (post kitty) = kitty
  /\ lookup "name" [("name", JStr "kitty"); ("category", JStr "cat")]
     = Some (JStr "kitty")
  /\ lookup "category" [("name", JStr "kitty"); ("category", JStr "cat")]
     = Some (JStr "cat")
  /\ text_or_null (JStr "kitty") = true
  /\ text_or_null (JStr "cat") = true
  /\ exists i,
       full_dispatch_request (create_pets (post kitty)) [rex]
       = (make_response
            (jsonify (JObj [("id", JInt i); ("name", JStr "kitty");
                            ("category", JStr "cat")]))
            HTTP_201_CREATED
            [("Location", (url_root (post kitty) ++ "pets/" ++ format_int i)%string)],
          [rex] ++ [mkRow i (JStr "kitty") (JStr "cat")])
       /\ find_row i [rex] = None
       /\ (forall j r, find_row j [rex] = Some r ->
                       find_row j ([rex] ++ [mkRow i (JStr "kitty") (JStr "cat")])
                       = Some r).
Proof.
  assert (Hj : get_json (post kitty)
               = JObj [("name", JStr "kitty"); ("category", JStr "cat")])
    by reflexivity.
  assert (Hn : lookup "name" [("name", JStr "kitty"); ("category", JStr "cat")]
               = Some (JStr "kitty")) by reflexivity.
  assert (Hc : lookup "category" [("name", JStr "kitty"); ("category", JStr "cat")]
               = Some (JStr "cat")) by reflexivity.
  assert (Tn : text_or_null (JStr "kitty") = true) by reflexivity.
  assert (Tc : text_or_null (JStr "cat") = true) by reflexivity.
  split; [exact Hj|]. split; [exact Hn|]. split; [exact Hc|].
  split; [exact Tn|]. split; [exact Tc|].
  exact (create_pets_created (post kitty) [rex] _ _ _ Hj Hn Hc Tn Tc).
Defined.

(** X4. POST /pets answers 201, 400 or 500 and nothing else: 400 exactly
    when the body is rejected (not an object, or without [name] or
    [category]), 500 exactly when the body has both keys and one of the two
    values cannot be bound to its column (a list, an object, or an integer
    outside 64 bits).  It never removes or changes a row: the table after
    it is the table before it followed by at most one row, and by one
    exactly when it answers 201. *)
Theorem create_pets_outcomes (request : Request) (t : Table) :
  let out := full_dispatch_request (create_pets request) t in
  (status_code (fst out) = 201 \/ status_code (fst out) = 400
   \/ status_code (fst out) = 500)
  /\ (status_code (fst out) = 400 <-> invalid_body (get_json request))
  /\ (status_code (fst out) = 500
      <-> exists members vn vc,
            get_json request = JObj members
            /\ lookup "name" members = Some vn
            /\ lookup "category" members = Some vc
            /\ (bindable vn = false \/ bindable vc = false))
  /\ (forall v, bindable v = false
                <-> match v with
                    | JArr _ | JObj _ => True
                    | JInt n => fits_int64 n = false
                    | _ => False
                    end)
  /\ exists extra,
       snd out = t ++ extra
       /\ (List.length extra <= 1)%nat
       /\ (status_code (fst out) = 201 <-> List.length extra = 1%nat).
Proof.
  cbv zeta.
  assert (Hbind : forall v, bindable v = false
                            <-> match v with
                                | JArr _ | JObj _ => True
                                | JInt n => fits_int64 n = false
                                | _ => False
                                end).
  { intros v; unfold bindable; destruct v; cbn; try (split; [discriminate|tauto]);
      try tauto.
    destruct (fits_int64 n); split; auto; discriminate. }
  destruct (body_cases (get_json request))
    as [Hbad | (members & vn & vc & Hj & Hn & Hc)].
  - destruct (create_pets_invalid request t Hbad) as [message ->].
    cbn [fst snd].
    split; [right; now left|]. split; [tauto|].
    split.
    { split; [discriminate|].
      intros (members & vn & vc & Hj & Hn & Hc & _).
      rewrite Hj in Hbad; now elim (valid_not_invalid members vn vc Hn Hc). }
    split; [exact Hbind|].
    exists []; rewrite app_nil_r; cbn.
    split; [reflexivity|]. split; [lia|]. split; discriminate.
  - assert (Hnot400 : invalid_body (get_json request) -> False)
      by (rewrite Hj; apply (valid_not_invalid members vn vc Hn Hc)).
    rewrite (create_pets_to_commit request t members vn vc Hj Hn Hc).
    assert (Hsame : forall m' vn' vc',
               get_json request = JObj m' ->
               lookup "name" m' = Some vn' ->
               lookup "category" m' = Some vc' -> vn' = vn /\ vc' = vc).
    { intros m' vn' vc' Hj' Hn' Hc'.
      rewrite Hj in Hj'; injection Hj' as <-.
      rewrite Hn in Hn'; rewrite Hc in Hc'.
      now injection Hn' as <-; injection Hc' as <-. }
    unfold bindable in *.
    destruct (bind_param vn) as [sn|e] eqn:Bn.
    + destruct (bind_param vc) as [sc|e] eqn:Bc.
      * cbn [fst snd created status_code make_response].
        split; [now left|].
        split; [split; [discriminate | intros H; now elim Hnot400]|].
        split.
        { split; [discriminate|].
          intros (m' & vn' & vc' & Hj' & Hn' & Hc' & Hb).
          destruct (Hsame m' vn' vc' Hj' Hn' Hc') as [-> ->].
          rewrite Bn, Bc in Hb; destruct Hb; discriminate. }
        split; [exact Hbind|].
        eexists [_]; split; [reflexivity|].
        split; [cbn; lia|]. split; reflexivity.
      * rewrite (bind_param_raises vc e Bc); cbn [fst snd].
        split; [right; now right|].
        split; [split; [discriminate | intros H; now elim Hnot400]|].
        split.
        { split; [|reflexivity].
          intros _; exists members, vn, vc; rewrite Bc; auto. }
        split; [exact Hbind|].
        exists []; rewrite app_nil_r; cbn.
        split; [reflexivity|]. split; [lia|]. split; discriminate.
    + rewrite (bind_param_raises vn e Bn); cbn [fst snd].
      split; [right; now right|].
      split; [split; [discriminate | intros H; now elim Hnot400]|].
      split.
      { split; [|reflexivity].
        intros _; exists members, vn, vc; rewrite Bn; auto. }
      split; [exact Hbind|].
      exists []; rewrite app_nil_r; cbn.
      split; [reflexivity|]. split; [lia|]. split; discriminate.
Qed.

(** ** Updating *)

(** X5. A PUT /pets/{id} for an id that has a row, with an object holding
    [name] and [category], each a string or null, answers 200 with the id
    and the two new values; the row of that id then has the new values
    under the same id, every other id finds what it found before, the ids
    of the table are the same in the same order, and a GET of the id
    answers with the body the PUT answered. *)
Theorem update_pets_replaces (request : Request) (i : Z) (t : Table) (r : Row)
    (members : list (string * json)) (vn vc : json) :
  find_row i t = Some r ->
  get_json request = JObj members ->
  lookup "name" members = Some vn ->
  lookup "category" members = Some vc ->
  text_or_null vn = true ->
  text_or_null vc = true ->
  let out := full_dispatch_request (update_pets request i) t in
  fst out
  = make_response
      (jsonify (JObj [("id", JInt i); ("name", vn); ("category", vc)]))
      HTTP_200_OK []
  /\ find_row i (snd out) = Some (mkRow i vn vc)
  /\ (forall j, j <> i -> find_row j (snd out) = find_row j t)
  /\ map row_id (snd out) = map row_id t
  /\ full_dispatch_request (get_pets i) (snd out) = (fst out, snd out).
Proof.
  intros H Hj Hn Hc Tn Tc; cbv zeta.
  rewrite (update_pets_stored request i t r members vn vc vn vc H Hj Hn Hc)
    by (now apply written_text).
  cbn [fst snd].
  assert (Hf : find_row i (update_row i vn vc t) = Some (mkRow i vn vc))
    by (now apply find_row_update_same with (r := r)).
  split; [reflexivity|]. split; [exact Hf|].
  split; [intros j Hne; now apply find_row_update_other|].
  split; [apply update_row_ids|].
  now rewrite (get_pets_found i _ _ Hf).
Qed.

Lemma update_pets_replaces_witness :
  find_row 2 [rex; tom] = Some tom
  /\ get_json (post fido) = fido
  /\ text_or_null (JStr "fido") = true
  /\ text_or_null (JStr "dog") = true
  /\ fst (full_dispatch_request (update_pets (post fido) 2) [rex; tom])
     = make_response
         (jsonify (JObj [("id", JInt 2); ("name", JStr "fido");
                         ("category", JStr "dog")]))
         HTTP_200_OK []
  /\ find_row 2 (snd (full_dispatch_request (update_pets (post fido) 2) [rex; tom]))
     = Some (mkRow 2 (JStr "fido") (JStr "dog")).
Proof.
  assert (H : find_row 2 [rex; tom] = Some tom) by reflexivity.
  assert (Hj : get_json (post fido)
               = JObj [("name", JStr "fido"); ("category", JStr "dog")])
    by reflexivity.
  assert (Hn : lookup "name" [("name", JStr "fido"); ("category", JStr "dog")]
               = Some (JStr "fido")) by reflexivity.
  assert (Hc : lookup "category" [("name", JStr "fido"); ("category", JStr "dog")]
               = Some (JStr "dog")) by reflexivity.
  assert (Tn : text_or_null (JStr "fido") = true) by reflexivity.
  assert (Tc : text_or_null (JStr "dog") = true) by reflexivity.
  split; [exact H|]. split; [exact Hj|]. split; [exact Tn|]. split; [exact Tc|].
  split.
  - exact (proj1 (update_pets_replaces (post fido) 2 [rex; tom] tom _ _ _
                    H Hj Hn Hc Tn Tc)).
  - exact (proj1 (proj2 (update_pets_replaces (post fido) 2 [rex; tom] tom _ _ _
                           H Hj Hn Hc Tn Tc))).
Defined.

(** X6. PUT /pets/{id} answers 200, 400, 404 or 500 and nothing else: 404
    exactly when no row has the id and the id fits the 64-bit key (also
    when the body is bad: the row is fetched before the body is read), 500
    when no row has the id and the id does not fit, 400 exactly when a row
    has the id and the body is rejected, and 200 when a row has the id and
    the body has [name] and [category] with values that can be bound.
    Whatever the answer, the table keeps its ids, in the same order: a PUT
    neither creates nor removes a row. *)
Theorem update_pets_outcomes (request : Request) (i : Z) (t : Table) :
  let out := full_dispatch_request (update_pets request i) t in
  (status_code (fst out) = 200 \/ status_code (fst out) = 400
   \/ status_code (fst out) = 404 \/ status_code (fst out) = 500)
  /\ (status_code (fst out) = 404
      <-> find_row i t = None /\ fits_int64 i = true)
  /\ (find_row i t = None -> fits_int64 i = false ->
      status_code (fst out) = 500)
  /\ (status_code (fst out) = 400
      <-> find_row i t <> None /\ invalid_body (get_json request))
  /\ (forall members vn vc,
         find_row i t <> None ->
         get_json request = JObj members ->
         lookup "name" members = Some vn ->
         lookup "category" members = Some vc ->
         bindable vn = true ->
         bindable vc = true ->
         status_code (fst out) = 200)
  /\ map row_id (snd out) = map row_id t.
Proof.
  cbv zeta.
  destruct (find_row i t) as [r|] eqn:E.
  - destruct (body_cases (get_json request))
      as [Hbad | (members & vn & vc & Hj & Hn & Hc)].
    + destruct (update_pets_invalid request i t r E Hbad) as [message ->].
      cbn [fst snd].
      split; [right; now left|].
      split; [split; [discriminate | intros [H _]; discriminate H]|].
      split; [discriminate|].
      split; [split; [intros _; split; [discriminate | exact Hbad] | reflexivity]|].
      split; [|reflexivity].
      intros m' vn' vc' _ Hj' Hn' Hc' _ _.
      rewrite Hj' in Hbad; now elim (valid_not_invalid m' vn' vc' Hn' Hc').
    + assert (Hnot400 : invalid_body (get_json request) -> False)
        by (rewrite Hj; apply (valid_not_invalid members vn vc Hn Hc)).
      rewrite (update_pets_to_commit request i t r members vn vc E Hj Hn Hc).
      assert (Hok : forall m' vn' vc',
                 get_json request = JObj m' ->
                 lookup "name" m' = Some vn' ->
                 lookup "category" m' = Some vc' ->
                 bindable vn' = true -> bindable vc' = true ->
                 exists sn sc, written (row_name r) vn = Return sn
                               /\ written (row_category r) vc = Return sc).
      { intros m' vn' vc' Hj' Hn' Hc' Bn Bc.
        rewrite Hj in Hj'; injection Hj' as <-.
        rewrite Hn in Hn'; injection Hn' as <-.
        rewrite Hc in Hc'; injection Hc' as <-.
        destruct (bindable_written (row_name r) vn Bn) as [sn Wn].
        destruct (bindable_written (row_category r) vc Bc) as [sc Wc].
        eauto. }
      destruct (written (row_name r) vn) as [sn|e] eqn:Wn.
      * destruct (written (row_category r) vc) as [sc|e] eqn:Wc.
        -- cbn [fst snd].
           split; [now left|].
           split; [split; [discriminate | intros [H _]; discriminate H]|].
           split; [discriminate|].
           split; [split; [discriminate | intros [_ H]; now elim Hnot400]|].
           split; [reflexivity | apply update_row_ids].
        -- rewrite (written_raises _ _ e Wc); cbn [fst snd].
           split; [do 3 right; reflexivity|].
           split; [split; [discriminate | intros [H _]; discriminate H]|].
           split; [discriminate|].
           split; [split; [discriminate | intros [_ H]; now elim Hnot400]|].
           split; [|reflexivity].
           intros m' vn' vc' _ Hj' Hn' Hc' Bn Bc.
           destruct (Hok m' vn' vc' Hj' Hn' Hc' Bn Bc) as (? & ? & _ & W).
           discriminate W.
      * rewrite (written_raises _ _ e Wn); cbn [fst snd].
        split; [do 3 right; reflexivity|].
        split; [split; [discriminate | intros [H _]; discriminate H]|].
        split; [discriminate|].
        split; [split; [discriminate | intros [_ H]; now elim Hnot400]|].
        split; [|reflexivity].
        intros m' vn' vc' _ Hj' Hn' Hc' Bn Bc.
        destruct (Hok m' vn' vc' Hj' Hn' Hc' Bn Bc) as (? & ? & W & _).
        discriminate W.
  - destruct (fits_int64 i) eqn:Hf.
    + rewrite (update_pets_missing request i t E Hf); cbn [fst snd].
      split; [right; right; now left|].
      split; [split; auto|].
      split; [discriminate|].
      split; [split; [discriminate | intros [Hne _]; now elim Hne]|].
      split; [|reflexivity].
      intros m' vn' vc' Hne; now elim Hne.
    + rewrite (update_pets_overflow request i t E Hf); cbn [fst snd].
      split; [do 3 right; reflexivity|].
      split; [split; [discriminate | intros [_ H]; discriminate H]|].
      split; [reflexivity|].
      split; [split; [discriminate | intros [Hne _]; now elim Hne]|].
      split; [|reflexivity].
      intros m' vn' vc' Hne; now elim Hne.
Qed.

(** X7. A PUT that succeeds can be repeated: the same request on the table
    it left answers the same and leaves the same table. *)
Theorem update_pets_repeat (request : Request) (i : Z) (t : Table) :
  status_code (fst (full_dispatch_request (update_pets request i) t)) = 200 ->
  full_dispatch_request (update_pets request i)
    (snd (full_dispatch_request (update_pets request i) t))
  = full_dispatch_request (update_pets request i) t.
Proof.
  intros Hst.
  destruct (update_pets_status_200 request i t Hst)
    as (r & members & vn & vc & sn & sc & E & Hj & Hn & Hc & Wn & Wc).
  rewrite (update_pets_stored request i t r members vn vc sn sc
             E Hj Hn Hc Wn Wc).
  cbn [snd].
  rewrite (update_pets_stored request i (update_row i sn sc t) (mkRow i sn sc)
             members vn vc sn sc
             (find_row_update_same i sn sc t r E) Hj Hn Hc
             (written_again _ _ _ Wn) (written_again _ _ _ Wc)).
  now rewrite update_row_twice.
Qed.

Lemma update_pets_repeat_witness :
  status_code (fst (full_dispatch_request (update_pets (post fido) 2) [rex; tom]))
  = 200
  /\ full_dispatch_request (update_pets (post fido) 2)
       (snd (full_dispatch_request (update_pets (post fido) 2) [rex; tom]))
     = full_dispatch_request (update_pets (post fido) 2) [rex; tom].
Proof.
  assert (H : status_code
                (fst (full_dispatch_request (update_pets (post fido) 2) [rex; tom]))
              = 200) by reflexivity.
  split; [exact H|].
  exact (update_pets_repeat (post fido) 2 [rex; tom] H).
Defined.

(** X8. In a table whose ids are unique, a PUT of the object that GET
    answered for the id answers 200 with that same object and leaves the
    table as it was. *)
Theorem update_pets_with_get_body (request : Request) (i : Z) (t : Table)
    (d : json) :
  unique_ids t ->
  fst (full_dispatch_request (get_pets i) t) = ok_json d ->
  get_json request = d ->
  full_dispatch_request (update_pets request i) t = (ok_json d, t).
Proof.
  intros Hu Hget Hj.
  destruct (find_row i t) as [r|] eqn:E.
  - rewrite (get_pets_found i t r E) in Hget; cbn [fst] in Hget.
    injection Hget as <-.
    destruct (find_row_id _ _ _ E) as [Hid _].
    rewrite (update_pets_stored request i t r
               [("id", JInt (row_id r)); ("name", row_name r);
                ("category", row_category r)]
               (row_name r) (row_category r) (row_name r) (row_category r)
               E Hj eq_refl eq_refl (written_refl _) (written_refl _)).
    rewrite (update_row_same_values i t r Hu E).
    unfold row_dict, pet_dict, row_pet; cbn; now rewrite Hid.
  - destruct (fits_int64 i) eqn:Hf.
    + rewrite (get_pets_missing i t E Hf) in Hget; discriminate Hget.
    + rewrite (get_pets_overflow i t E Hf) in Hget; discriminate Hget.
Qed.

Lemma update_pets_with_get_body_witness :
  unique_ids [rex; tom]
  /\ fst (full_dispatch_request (get_pets 2) [rex; tom]) = ok_json (row_dict tom)
  /\ full_dispatch_request (update_pets (post (row_dict tom)) 2) [rex; tom]
     = (ok_json (row_dict tom), [rex; tom]).
Proof.
  assert (Hu : unique_ids [rex; tom]).
  { unfold unique_ids; cbn. repeat constructor; cbn; intuition discriminate. }
  assert (Hg : fst (full_dispatch_request (get_pets 2) [rex; tom])
               = ok_json (row_dict tom)) by reflexivity.
  split; [exact Hu|]. split; [exact Hg|].
  exact (update_pets_with_get_body (post (row_dict tom)) 2 [rex; tom]
           (row_dict tom) Hu Hg eq_refl).
Defined.

(** ** Deleting *)

(** X9. DELETE /pets/{id} removes the rows of that id and no other: the
    table after it has the rows of the table before it whose id differs and
    no row of that id, a GET of the id then answers 404 (500 when the id
    does not fit the 64-bit key), and a GET of any other id answers what it
    answered before. *)
Theorem delete_pets_removes_only_that_id (i : Z) (t : Table) :
  let t' := snd (full_dispatch_request (delete_pets i) t) in
  (forall r, In r t' <-> In r t /\ row_id r <> i)
  /\ find_row i t' = None
  /\ status_code (fst (full_dispatch_request (get_pets i) t'))
     = (if fits_int64 i then 404 else 500)
  /\ (forall j, j <> i ->
        fst (full_dispatch_request (get_pets j) t')
        = fst (full_dispatch_request (get_pets j) t)).
Proof.
  cbv zeta; rewrite delete_pets_table.
  pose proof (find_row_delete_row i t) as Hgone.
  split; [intros r; apply delete_row_In|].
  split; [exact Hgone|].
  split.
  - destruct (fits_int64 i) eqn:Hf.
    + now rewrite (get_pets_missing i _ Hgone Hf).
    + now rewrite (get_pets_overflow i _ Hgone Hf).
  - intros j Hne.
    pose proof (find_row_delete_other i j t Hne) as Hf.
    destruct (find_row j t) as [r|] eqn:E.
    + now rewrite (get_pets_found j _ r Hf), (get_pets_found j t r E).
    + destruct (fits_int64 j) eqn:Hj.
      * now rewrite (get_pets_missing j _ Hf Hj), (get_pets_missing j t E Hj).
      * now rewrite (get_pets_overflow j _ Hf Hj), (get_pets_overflow j t E Hj).
Qed.

(** ** deserialize, closer *)

(** X10. [deserialize] looks up [name] first.  Without [name] it raises
    "Invalid pet: missing name" and leaves every instance as it was, also
    when [category] is missing too.  With [name] and without [category] it
    raises "Invalid pet: missing category" after it has assigned [name]: the
    instance has the new name, its old [id] and [category], and no other
    instance and no row has changed. *)
Theorem deserialize_checks_name_first (self : ref)
    (members : list (string * json)) (w : World) :
  (lookup "name" members = None ->
   deserialize self (JObj members) w
   = (Raise (DataValidationError "Invalid pet: missing name"), w))
  /\ (forall (vn : json) (o : Obj),
         nth_error (heap w) self = Some o ->
         lookup "name" members = Some vn ->
         lookup "category" members = None ->
         exists w',
           deserialize self (JObj members) w
           = (Raise (DataValidationError "Invalid pet: missing category"), w')
           /\ db w' = db w
           /\ nth_error (heap w') self
              = Some (mkObj (mkPet (id (obj_pet o)) vn (category (obj_pet o)))
                            (obj_state o) true)
           /\ (forall other, other <> self ->
                 nth_error (heap w') other = nth_error (heap w) other)).
Proof.
  split; [apply deserialize_missing_name|].
  intros vn o Ho Hn Hc.
  eexists; split; [apply (deserialize_missing_category _ _ _ _ _ Ho Hn Hc)|].
  cbn [db heap]; split; [reflexivity|].
  split; [now apply nth_error_set_nth with (b := o)|].
  intros other Hne.
  clear Ho; revert self other Hne.
  induction (heap w) as [|x h IH]; intros [|self] [|other] Hne; cbn; auto;
    try (now elim Hne); try (apply IH; congruence).
Qed.

Lemma deserialize_checks_name_first_witness :
  let w := mkWorld [rex] [mkObj (row_pet rex) Persistent false] in
  (lookup "name" [("category", JStr "cat")] = None
   /\ deserialize 0%nat (JObj [("category", JStr "cat")]) w
      = (Raise (DataValidationError "Invalid pet: missing name"), w))
  /\ (lookup "name" [("name", JStr "felix")] = Some (JStr "felix")
      /\ lookup "category" [("name", JStr "felix")] = None
      /\ exists w',
           deserialize 0%nat (JObj [("name", JStr "felix")]) w
           = (Raise (DataValidationError "Invalid pet: missing category"), w')
           /\ db w' = [rex]
           /\ nth_error (heap w') 0
              = Some (mkObj (mkPet (Some 1) (JStr "felix") (JStr "dog"))
                            Persistent true)).
Proof.
  cbv zeta.
  assert (H0 : lookup "name" [("category", JStr "cat")] = None) by reflexivity.
  assert (Ho : nth_error
                 (heap (mkWorld [rex] [mkObj (row_pet rex) Persistent false])) 0
               = Some (mkObj (row_pet rex) Persistent false)) by reflexivity.
  assert (Hn : lookup "name" [("name", JStr "felix")] = Some (JStr "felix"))
    by reflexivity.
  assert (Hc : lookup "category" [("name", JStr "felix")] = None)
    by reflexivity.
  split.
  - split; [exact H0|].
    exact (proj1 (deserialize_checks_name_first 0%nat _ _) H0).
  - split; [exact Hn|]. split; [exact Hc|].
    destruct (proj2 (deserialize_checks_name_first 0%nat
                       [("name", JStr "felix")]
                       (mkWorld [rex] [mkObj (row_pet rex) Persistent false]))
                    _ _ Ho Hn Hc)
      as (w' & E & Hdb & Hself & _).
    exists w'; split; [exact E|]. split; [exact Hdb | exact Hself].
Defined.

(** X11. [deserialize] reads the keys [name] and [category] and no other:
    two objects that agree on these two keys (whatever [id], [available] or
    other members they have) give the same result on the same instance, and
    so the same answer and the same table when they are the bodies of a POST
    or of a PUT. *)
Theorem deserialize_reads_two_keys (members members' : list (string * json)) :
  lookup "name" members = lookup "name" members' ->
  lookup "category" members = lookup "category" members' ->
  (forall self w,
      deserialize self (JObj members) w = deserialize self (JObj members') w)
  /\ (forall request request' t,
         get_json request = JObj members ->
         get_json request' = JObj members' ->
         url_root request = url_root request' ->
         full_dispatch_request (create_pets request) t
         = full_dispatch_request (create_pets request') t)
  /\ (forall request request' i t,
         get_json request = JObj members ->
         get_json request' = JObj members' ->
         full_dispatch_request (update_pets request i) t
         = full_dispatch_request (update_pets request' i) t).
Proof.
  intros Hn Hc.
  assert (D : forall self w,
             deserialize self (JObj members) w
             = deserialize self (JObj members') w).
  { intros self w.
    unfold deserialize, getitem, bind, try_except.
    now rewrite Hn, Hc. }
  split; [exact D|]. split.
  - intros request request' t Hj Hj' Hroot.
    unfold full_dispatch_request, create_pets, bind at 1, Pet_new, alloc.
    unfold bind at 1. symmetry. unfold bind at 1, bind at 1. symmetry.
    cbn [heap db List.length app].
    rewrite Hj, Hj', D.
    unfold self_url; now rewrite Hroot.
  - intros request request' i t Hj Hj'.
    unfold full_dispatch_request, update_pets.
    unfold bind at 1. symmetry. unfold bind at 1. symmetry.
    destruct (query_get_or_404 i (mkWorld t [])) as [[p|e] w]; [|reflexivity].
    unfold bind at 1. symmetry. unfold bind at 1. symmetry.
    now rewrite Hj, Hj', D.
Qed.

Lemma deserialize_reads_two_keys_witness :
  let plain := [("name", JStr "kitty"); ("category", JStr "cat")] in
  let more := [("id", JInt 7); ("name", JStr "kitty"); ("category", JStr "cat");
               ("available", JBool true)] in
  lookup "name" plain = lookup "name" more
  /\ lookup "category" plain = lookup "category" more
  /\ full_dispatch_request (create_pets (post (JObj plain))) [rex]
     = full_dispatch_request (create_pets (post (JObj more))) [rex].
Proof.
  cbv zeta.
  assert (Hn : lookup "name" [("name", JStr "kitty"); ("category", JStr "cat")]
               = lookup "name" [("id", JInt 7); ("name", JStr "kitty");
                                ("category", JStr "cat"); ("available", JBool true)])
    by reflexivity.
  assert (Hc : lookup "category" [("name", JStr "kitty"); ("category", JStr "cat")]
               = lookup "category" [("id", JInt 7); ("name", JStr "kitty");
                                    ("category", JStr "cat");
                                    ("available", JBool true)])
    by reflexivity.
  split; [exact Hn|]. split; [exact Hc|].
  exact (proj1 (proj2 (deserialize_reads_two_keys _ _ Hn Hc))
           (post (JObj _)) (post (JObj _)) [rex] eq_refl eq_refl eq_refl).
Defined.

(** ** Error responses *)

Lemma serve_shapes (c : call) (t : Table) :
  status_code (fst (serve c t)) = 200
  \/ status_code (fst (serve c t)) = 201
  \/ status_code (fst (serve c t)) = 204
  \/ fst (serve c t) = internal_error
  \/ exists message,
       fst (serve c t) = request_validation_error message
       \/ fst (serve c t) = not_found message.
Proof.
  destruct c as [request | i | request | request i | i]; cbn [serve].
  - rewrite list_pets_run; now left.
  - destruct (find_row i t) as [r|] eqn:E.
    + rewrite (get_pets_found i t r E); now left.
    + destruct (fits_int64 i) eqn:Hf.
      * rewrite (get_pets_missing i t E Hf); do 4 right; eexists; now right.
      * rewrite (get_pets_overflow i t E Hf); do 3 right; now left.
  - destruct (body_cases (get_json request))
      as [Hbad | (members & vn & vc & Hj & Hn & Hc)].
    + destruct (create_pets_invalid request t Hbad) as [message ->].
      do 4 right; eexists; now left.
    + rewrite (create_pets_to_commit request t members vn vc Hj Hn Hc).
      destruct (bind_param vn) as [sn|e] eqn:Bn;
        [|rewrite (bind_param_raises vn e Bn); do 3 right; now left].
      destruct (bind_param vc) as [sc|e] eqn:Bc;
        [|rewrite (bind_param_raises vc e Bc); do 3 right; now left].
      right; now left.
  - destruct (find_row i t) as [r|] eqn:E.
    + destruct (body_cases (get_json request))
        as [Hbad | (members & vn & vc & Hj & Hn & Hc)].
      * destruct (update_pets_invalid request i t r E Hbad) as [message ->].
        do 4 right; eexists; now left.
      * rewrite (update_pets_to_commit request i t r members vn vc E Hj Hn Hc).
        destruct (written (row_name r) vn) as [sn|e] eqn:Wn;
          [|rewrite (written_raises _ _ e Wn); do 3 right; now left].
        destruct (written (row_category r) vc) as [sc|e] eqn:Wc;
          [|rewrite (written_raises _ _ e Wc); do 3 right; now left].
        now left.
    + destruct (fits_int64 i) eqn:Hf.
      * rewrite (update_pets_missing request i t E Hf).
        do 4 right; eexists; now right.
      * rewrite (update_pets_overflow request i t E Hf); do 3 right; now left.
  - destruct (find_row i t) as [r|] eqn:E.
    + rewrite delete_pets_run by (left; congruence); right; right; now left.
    + destruct (fits_int64 i) eqn:Hf.
      * rewrite delete_pets_run by (now right); right; right; now left.
      * rewrite (delete_pets_overflow i t E Hf); do 3 right; now left.
Qed.

(** X12. Each of the five error handlers answers with the JSON envelope
    {status, error, message} whose [status] is the status code of the
    response.  A request to the five routes on /pets is answered 200, 201,
    204, 400, 404 or 500; an answer of 400 or more is such an envelope, and
    an answer of 500 is the one of the 500 handler, with its fixed
    message. *)
Theorem error_responses_are_envelopes :
  (forall message,
      is_envelope (request_validation_error message)
      /\ is_envelope (bad_request message)
      /\ is_envelope (not_found message))
  /\ is_envelope method_not_allowed
  /\ is_envelope internal_error
  /\ (forall e, is_envelope (handle_user_exception e))
  /\ (forall c t,
         let r := fst (serve c t) in
         (status_code r = 200 \/ status_code r = 201 \/ status_code r = 204
          \/ status_code r = 400 \/ status_code r = 404 \/ status_code r = 500)
         /\ (400 <= status_code r -> is_envelope r)
         /\ (status_code r = 500 -> r = internal_error)).
Proof.
  assert (Hv : forall m, is_envelope (request_validation_error m))
    by (intros m; do 2 eexists; reflexivity).
  assert (Hn : forall m, is_envelope (not_found m))
    by (intros m; do 2 eexists; reflexivity).
  assert (Hi : is_envelope internal_error) by (do 2 eexists; reflexivity).
  split; [intros m; repeat split; auto; do 2 eexists; reflexivity|].
  split; [do 2 eexists; reflexivity|].
  split; [exact Hi|].
  split; [intros [k|m|m|d| | | |]; cbn; auto|].
  intros c t; cbv zeta.
  destruct (serve_shapes c t) as [H|[H|[H|[H|[m [H|H]]]]]]; rewrite H.
  - split; [tauto|]. split; [lia | discriminate].
  - split; [tauto|]. split; [lia | discriminate].
  - split; [tauto|]. split; [lia | discriminate].
  - split; [cbn; tauto|]. split; [auto | reflexivity].
  - split; [cbn; tauto|]. split; [auto | discriminate].
  - split; [cbn; tauto|]. split; [auto | discriminate].
Qed.

(** ** Ids across requests *)

Lemma get_pets_table (i : Z) (t : Table) :
  snd (full_dispatch_request (get_pets i) t) = t.
Proof.
  destruct (find_row i t) as [r|] eqn:E.
  - now rewrite (get_pets_found i t r E).
  - destruct (fits_int64 i) eqn:Hf.
    + now rewrite (get_pets_missing i t E Hf).
    + now rewrite (get_pets_overflow i t E Hf).
Qed.

Lemma update_pets_ids (request : Request) (i : Z) (t : Table) :
  map row_id (snd (full_dispatch_request (update_pets request i) t))
  = map row_id t.
Proof.
  destruct (find_row i t) as [r|] eqn:E.
  - destruct (body_cases (get_json request))
      as [Hbad | (members & vn & vc & Hj & Hn & Hc)].
    + now destruct (update_pets_invalid request i t r E Hbad) as [message ->].
    + rewrite (update_pets_to_commit request i t r members vn vc E Hj Hn Hc).
      destruct (written (row_name r) vn); [|reflexivity].
      destruct (written (row_category r) vc); [|reflexivity].
      apply update_row_ids.
  - destruct (fits_int64 i) eqn:Hf.
    + now rewrite (update_pets_missing request i t E Hf).
    + now rewrite (update_pets_overflow request i t E Hf).
Qed.

Lemma serve_keeps_ids (c : call) (t : Table) :
  unique_ids t -> positive_ids t ->
  unique_ids (snd (serve c t)) /\ positive_ids (snd (serve c t)).
Proof.
  intros Hu Hp.
  destruct c as [request | i | request | request i | i]; cbn [serve].
  - rewrite list_pets_run; auto.
  - rewrite get_pets_table; auto.
  - destruct (body_cases (get_json request))
      as [Hbad | (members & vn & vc & Hj & Hn & Hc)].
    + destruct (create_pets_invalid request t Hbad) as [message ->]; auto.
    + rewrite (create_pets_to_commit request t members vn vc Hj Hn Hc).
      destruct (bind_param vn) as [sn|e]; [|auto].
      destruct (bind_param vc) as [sc|e]; [|auto].
      cbn [snd]; split.
      * apply unique_ids_insert; [exact Hu | apply next_id_unused].
      * intros r Hin; unfold insert_row in Hin.
        apply in_app_or in Hin as [Hin|[<-|[]]]; [now apply Hp|].
        now apply next_id_positive.
  - pose proof (update_pets_ids request i t) as Hids.
    split.
    + unfold unique_ids; now rewrite Hids.
    + intros r Hin.
      assert (Hi : In (row_id r) (map row_id t))
        by (rewrite <- Hids; now apply in_map).
      apply in_map_iff in Hi as (y & <- & Hy); now apply Hp.
  - rewrite delete_pets_table; split.
    + now apply unique_ids_delete.
    + intros r Hin; apply delete_row_In in Hin as [Hin _]; now apply Hp.
Qed.

(** X13. Through any sequence of requests to the five routes the ids of the
    table stay unique and positive when they were so at the start, as they
    are in the empty table. *)
Theorem requests_keep_ids_unique_and_positive (cs : list call) (t : Table) :
  unique_ids t ->
  positive_ids t ->
  unique_ids (serve_all cs t) /\ positive_ids (serve_all cs t).
Proof.
  revert t; induction cs as [|c cs IH]; intros t Hu Hp; cbn [serve_all].
  - auto.
  - destruct (serve_keeps_ids c t Hu Hp) as [Hu' Hp'].
    now apply IH.
Qed.

Lemma requests_keep_ids_unique_and_positive_witness :
  unique_ids [] /\ positive_ids []
  /\ unique_ids (serve_all [POST_pets (post fido); POST_pets (post kitty);
                            DELETE_pets_id 1; POST_pets (post fido);
                            PUT_pets_id (post kitty) 3] [])
  /\ positive_ids (serve_all [POST_pets (post fido); POST_pets (post kitty);
                              DELETE_pets_id 1; POST_pets (post fido);
                              PUT_pets_id (post kitty) 3] []).
Proof.
  assert (Hu : unique_ids []) by constructor.
  assert (Hp : positive_ids []) by (intros r []).
  split; [exact Hu|]. split; [exact Hp|].
  exact (requests_keep_ids_unique_and_positive _ [] Hu Hp).
Defined.

(** ** Requests composed *)

(** X14. Two POSTs that succeed one after the other create two records
    under different ids, and each id then reads back, by GET, the [name]
    and [category] of its own POST. *)
Theorem create_pets_twice (first second : Request) (t : Table) :
  let out1 := full_dispatch_request (create_pets first) t in
  let out2 := full_dispatch_request (create_pets second) (snd out1) in
  status_code (fst out1) = 201 ->
  status_code (fst out2) = 201 ->
  exists i1 i2 n1 c1 n2 c2,
    data (fst out1) = Json (JObj [("id", JInt i1); ("name", n1); ("category", c1)])
    /\ data (fst out2) = Json (JObj [("id", JInt i2); ("name", n2); ("category", c2)])
    /\ i1 <> i2
    /\ fst (full_dispatch_request (get_pets i1) (snd out2))
       = ok_json (JObj [("id", JInt i1); ("name", n1); ("category", c1)])
    /\ fst (full_dispatch_request (get_pets i2) (snd out2))
       = ok_json (JObj [("id", JInt i2); ("name", n2); ("category", c2)]).
Proof.
  cbv zeta; intros H1 H2.
  destruct (create_pets_status_201 first t H1) as (n1 & c1 & E1).
  rewrite E1 in H2 |- *; cbn [fst snd] in H2 |- *.
  set (t1 := insert_row (mkRow (next_id t) n1 c1) t) in *.
  destruct (create_pets_status_201 second t1 H2) as (n2 & c2 & E2).
  rewrite E2; cbn [fst snd].
  exists (next_id t), (next_id t1), n1, c1, n2, c2.
  assert (F1 : find_row (next_id t) t1 = Some (mkRow (next_id t) n1 c1))
    by (apply (find_row_insert_new t (mkRow (next_id t) n1 c1)), next_id_unused).
  assert (Hne : next_id t <> next_id t1).
  { intros Heq. pose proof (next_id_unused t1) as Hn.
    rewrite <- Heq, F1 in Hn; discriminate Hn. }
  split; [reflexivity|]. split; [reflexivity|]. split; [exact Hne|].
  split.
  - rewrite (get_pets_found (next_id t) _ (mkRow (next_id t) n1 c1));
      [reflexivity|].
    now apply find_row_insert_old.
  - rewrite (get_pets_found (next_id t1) _ (mkRow (next_id t1) n2 c2));
      [reflexivity|].
    apply (find_row_insert_new t1 (mkRow (next_id t1) n2 c2)), next_id_unused.
Qed.

Lemma create_pets_twice_witness :
  status_code (fst (full_dispatch_request (create_pets (post fido)) [])) = 201
  /\ status_code
       (fst (full_dispatch_request (create_pets (post fido))
               (snd (full_dispatch_request (create_pets (post fido)) []))))
     = 201
  /\ exists i1 i2 n1 c1 n2 c2,
       data (fst (full_dispatch_request (create_pets (post fido)) []))
       = Json (JObj [("id", JInt i1); ("name", n1); ("category", c1)])
       /\ data (fst (full_dispatch_request (create_pets (post fido))
                       (snd (full_dispatch_request (create_pets (post fido)) []))))
          = Json (JObj [("id", JInt i2); ("name", n2); ("category", c2)])
       /\ i1 <> i2.
Proof.
  assert (H1 : status_code
                 (fst (full_dispatch_request (create_pets (post fido)) [])) = 201)
    by reflexivity.
  assert (H2 : status_code
                 (fst (full_dispatch_request (create_pets (post fido))
                         (snd (full_dispatch_request (create_pets (post fido)) []))))
               = 201) by reflexivity.
  split; [exact H1|]. split; [exact H2|].
  destruct (create_pets_twice (post fido) (post fido) [] H1 H2)
    as (i1 & i2 & n1 & c1 & n2 & c2 & E1 & E2 & Hne & _).
  exists i1, i2, n1, c1, n2, c2; auto.
Defined.

(** X15. After a POST that succeeds, GET /pets without a filter answers
    with the records it answered before, followed by the record the POST
    answered. *)
Theorem list_pets_after_create (request listing : Request) (t : Table) :
  status_code (fst (full_dispatch_request (create_pets request) t)) = 201 ->
  truthy (args_get "category" (args listing)) = false ->
  exists before created,
    fst (full_dispatch_request (list_pets listing) t) = ok_json (JArr before)
    /\ data (fst (full_dispatch_request (create_pets request) t)) = Json created
    /\ fst (full_dispatch_request (list_pets listing)
              (snd (full_dispatch_request (create_pets request) t)))
       = ok_json (JArr (before ++ [created])).
Proof.
  intros Hst Hl.
  destruct (create_pets_status_201 request t Hst) as (sn & sc & E).
  rewrite E; cbn [fst snd].
  rewrite !list_pets_run; unfold selected; rewrite Hl; cbn [fst].
  eexists _, _; split; [reflexivity|]. split; [reflexivity|].
  unfold insert_row; now rewrite map_app.
Qed.

Lemma list_pets_after_create_witness :
  status_code (fst (full_dispatch_request (create_pets (post kitty)) [rex])) = 201
  /\ truthy (args_get "category" (args (query []))) = false
  /\ exists before created,
       fst (full_dispatch_request (list_pets (query [])) [rex])
       = ok_json (JArr before)
       /\ data (fst (full_dispatch_request (create_pets (post kitty)) [rex]))
          = Json created
       /\ fst (full_dispatch_request (list_pets (query []))
                 (snd (full_dispatch_request (create_pets (post kitty)) [rex])))
          = ok_json (JArr (before ++ [created])).
Proof.
  assert (H : status_code
                (fst (full_dispatch_request (create_pets (post kitty)) [rex])) = 201)
    by reflexivity.
  assert (Hl : truthy (args_get "category" (args (query []))) = false)
    by reflexivity.
  split; [exact H|]. split; [exact Hl|].
  exact (list_pets_after_create (post kitty) (query []) [rex] H Hl).
Defined.

(** ** Keys and columns *)

(** X16. In a table whose keys fit 64 bits, an id that does not fit is
    answered 500, with the fixed message of the 500 handler, by GET, PUT and
    DELETE alike, and the table is left as it was. *)
Theorem huge_id_is_answered_500 (request : Request) (i : Z) (t : Table) :
  (forall r, In r t -> fits_int64 (row_id r) = true) ->
  fits_int64 i = false ->
  full_dispatch_request (get_pets i) t = (internal_error, t)
  /\ full_dispatch_request (update_pets request i) t = (internal_error, t)
  /\ full_dispatch_request (delete_pets i) t = (internal_error, t).
Proof.
  intros Hkeys Hf.
  assert (E : find_row i t = None).
  { apply find_row_none; intros r Hin Heq.
    rewrite <- Heq, (Hkeys r Hin) in Hf; discriminate Hf. }
  split; [now apply get_pets_overflow|].
  split; [now apply update_pets_overflow | now apply delete_pets_overflow].
Qed.

Lemma huge_id_is_answered_500_witness :
  (forall r, In r [rex; tom] -> fits_int64 (row_id r) = true)
  /\ fits_int64 (2 ^ 63) = false
  /\ full_dispatch_request (get_pets (2 ^ 63)) [rex; tom]
     = (internal_error, [rex; tom])
  /\ full_dispatch_request (update_pets (post fido) (2 ^ 63)) [rex; tom]
     = (internal_error, [rex; tom])
  /\ full_dispatch_request (delete_pets (2 ^ 63)) [rex; tom]
     = (internal_error, [rex; tom]).
Proof.
  assert (Hkeys : forall r, In r [rex; tom] -> fits_int64 (row_id r) = true)
    by (intros r [<-|[<-|[]]]; reflexivity).
  assert (Hf : fits_int64 (2 ^ 63) = false) by reflexivity.
  split; [exact Hkeys|]. split; [exact Hf|].
  exact (huge_id_is_answered_500 (post fido) (2 ^ 63) [rex; tom] Hkeys Hf).
Defined.

(** X17. The columns are Strings: a POST whose [name] is an integer of 64
    bits (with a [category] that is a string or null) answers 201 with the
    decimal text of the integer as [name], and a GET of the new id answers
    the same text. *)
Theorem create_pets_keeps_integer_as_text (request : Request) (t : Table)
    (members : list (string * json)) (n : Z) (vc : json) :
  get_json request = JObj members ->
  lookup "name" members = Some (JInt n) ->
  lookup "category" members = Some vc ->
  fits_int64 n = true ->
  text_or_null vc = true ->
  exists i,
    fst (full_dispatch_request (create_pets request) t)
    = created request i (JStr (format_int n)) vc
    /\ fst (full_dispatch_request (get_pets i)
              (snd (full_dispatch_request (create_pets request) t)))
       = ok_json (JObj [("id", JInt i); ("name", JStr (format_int n));
                        ("category", vc)]).
Proof.
  intros Hj Hn Hc Hf Tc.
  exists (next_id t).
  assert (Bn : bind_param (JInt n) = Return (JStr (format_int n)))
    by (cbn; now rewrite Hf).
  rewrite (create_pets_stored request t members (JInt n) vc
             (JStr (format_int n)) vc Hj Hn Hc Bn (bind_param_text vc Tc)).
  cbn [fst snd]; split; [reflexivity|].
  rewrite (get_pets_found (next_id t) _
             (mkRow (next_id t) (JStr (format_int n)) vc));
    [reflexivity|].
  apply (find_row_insert_new t (mkRow (next_id t) (JStr (format_int n)) vc)),
    next_id_unused.
Qed.

Lemma create_pets_keeps_integer_as_text_witness :
  let body := [("name", JInt 5); ("category", JStr "dog")] in
  get_json (post (JObj body)) = JObj body
  /\ fits_int64 5 = true
  /\ text_or_null (JStr "dog") = true
  /\ exists i,
       fst (full_dispatch_request (create_pets (post (JObj body))) [])
       = created (post (JObj body)) i (JStr (format_int 5)) (JStr "dog")
       /\ fst (full_dispatch_request (get_pets i)
                 (snd (full_dispatch_request (create_pets (post (JObj body))) [])))
          = ok_json (JObj [("id", JInt i); ("name", JStr (format_int 5));
                           ("category", JStr "dog")]).
Proof.
  cbv zeta.
  assert (Hj : get_json (post (JObj [("name", JInt 5); ("category", JStr "dog")]))
               = JObj [("name", JInt 5); ("category", JStr "dog")])
    by reflexivity.
  assert (Hf : fits_int64 5 = true) by reflexivity.
  assert (Tc : text_or_null (JStr "dog") = true) by reflexivity.
  split; [exact Hj|]. split; [exact Hf|]. split; [exact Tc|].
  exact (create_pets_keeps_integer_as_text _ [] _ 5 (JStr "dog")
           Hj eq_refl eq_refl Hf Tc).
Defined.
